(** * The CBOR serializer of k8s.io/apimachinery, embedded in Rocq

    Sources embedded here:
    - [runtime/serializer/cbor/cbor.go]: [defaultMetaFactory.Interpret],
      [serializer.Encode], [gvkWithDefaults], [diagnose],
      [serializer.unmarshal], [serializer.Decode],
      [serializer.RecognizesData];
    - [runtime/serializer/cbor/internal/modes/decode.go]: the decode modes
      [Decode] and [DecodeLax];
    - the earlier codec-based [Serializer.Encode];
    - [apiextensions/v1/marshal.go]: the JSON and CBOR methods of
      [JSONSchemaPropsOrBool], [JSONSchemaPropsOrStringArray],
      [JSONSchemaPropsOrArray] and [JSON].

    Go values are modelled as follows.  A [[]byte] is a [list byte]; a Go
    [string] is a [string]; [int64] and bit patterns are [Z]; a
    [map[string]interface{}] is a [gmap string Value] (a nil map and an empty
    map are identified); an interface with several implementations is a
    record of functions or a type class; a function that mutates the object
    behind a pointer returns the new state of that object. *)

From Stdlib Require Import ZArith Lia.
From Stdlib.Strings Require Import Byte Ascii String.
From stdpp Require Import base option list strings gmap.

#[global] Set Warnings "-register-all".
#[local] Open Scope Z_scope.

(** ** Byte strings *)

Abbreviation bytes := (list byte).

#[global] Instance byte_eq_decision : EqDecision byte := byte_eq_dec.

Definition byteZ (b : byte) : Z := Z.of_N (Byte.to_N b).

Definition Zbyte (z : Z) : byte :=
  match Byte.of_N (Z.to_N (z mod 256)) with
  | Some b => b
  | None => x00
  end.

(** [[]byte(s)] and [string(b)]. *)
Definition of_string (s : string) : bytes := String.list_byte_of_string s.
Definition to_string (b : bytes) : string := String.string_of_list_byte b.

(** Big-endian bytes of an [n]-byte unsigned integer. *)
Fixpoint bigEndian (n : nat) (z : Z) : bytes :=
  match n with
  | O => []
  | S n' => Zbyte (Z.shiftr z (8 * Z.of_nat n')) :: bigEndian n' z
  end.

Fixpoint fromBigEndian (acc : Z) (b : bytes) : Z :=
  match b with
  | [] => acc
  | x :: b' => fromBigEndian (Z.lor (Z.shiftl acc 8) (byteZ x)) b'
  end.

(** [encoding/hex]: [DecodeString] on well-formed input, [EncodeToString]. *)
Definition hexVal (a : ascii) : Z :=
  let n := Z.of_N (N_of_ascii a) in
  if (48 <=? n) && (n <=? 57) then n - 48
  else if (97 <=? n) && (n <=? 102) then n - 87
  else if (65 <=? n) && (n <=? 70) then n - 55
  else 0.

Fixpoint hex (s : string) : bytes :=
  match s with
  | String a (String b s') => Zbyte (16 * hexVal a + hexVal b) :: hex s'
  | _ => []
  end.

Definition hexDigit (z : Z) : ascii :=
  ascii_of_N (Z.to_N (if z <? 10 then 48 + z else 87 + z)).

Fixpoint EncodeToString (b : bytes) : string :=
  match b with
  | [] => EmptyString
  | x :: b' =>
      String (hexDigit (byteZ x / 16))
        (String (hexDigit (byteZ x mod 16)) (EncodeToString b'))
  end.

(** [bytes.HasPrefix]:
    [len(s) >= len(prefix) && Equal(s[:len(prefix)], prefix)]. *)
Definition HasPrefix (s prefix : bytes) : bool :=
  (length prefix <=? length s)%nat
  && bool_decide (take (length prefix) s = prefix).

(** ** Go [error] values

    One inductive type stands for the dynamic types of the errors that flow
    through the serializer; a type assertion on the dynamic type of an error
    (is it an unknown-field error of the CBOR library?) is a match on the
    constructor. *)

Inductive error : Type :=
| UnknownFieldError (Index : nat)        (* *cbor.UnknownFieldError *)
| EOF                                    (* io.EOF *)
| ErrUnexpectedEOF                       (* io.ErrUnexpectedEOF *)
| ErrShortWrite                          (* io.ErrShortWrite *)
| SyntaxError (msg : string)             (* *cbor.SyntaxError *)
| SemanticError (msg : string)           (* *cbor.SemanticError *)
| UnmarshalTypeError (msg : string)      (* *cbor.UnmarshalTypeError *)
| DupMapKeyError (key : string)          (* *cbor.DupMapKeyError *)
| MaxLimitError (msg : string)           (* nesting, array or map limit *)
| ExtraneousDataError                    (* *cbor.ExtraneousDataError *)
| errorString (msg : string)             (* errors.New(msg) *)
| wrapError (msg : string) (err : error) (* fmt.Errorf(msg + ": %w", err) *)
| missingKindErr (data : string)         (* runtime.NewMissingKindErr *)
| missingVersionErr (data : string)      (* runtime.NewMissingVersionErr *)
| notRegisteredErr (schemeName : string) (* runtime.NewNotRegisteredErrForType *)
| strictDecodingError (errors : list error). (* runtime.NewStrictDecodingError *)

(** ** Package [schema] *)

Module schema.

Record GroupVersionKind : Type :=
  { Group : string; Version : string; Kind : string }.

Record GroupVersion : Type := { gvGroup : string; gvVersion : string }.

Definition Empty : GroupVersionKind :=
  {| Group := ""; Version := ""; Kind := "" |}.

Definition eqb (a b : GroupVersionKind) : bool :=
  String.eqb (Group a) (Group b) && String.eqb (Version a) (Version b)
  && String.eqb (Kind a) (Kind b).

Definition setKind (g : GroupVersionKind) (k : string) :=
  {| Group := Group g; Version := Version g; Kind := k |}.
Definition setGroup (g : GroupVersionKind) (x : string) :=
  {| Group := x; Version := Version g; Kind := Kind g |}.
Definition setVersion (g : GroupVersionKind) (v : string) :=
  {| Group := Group g; Version := v; Kind := Kind g |}.

(** [strings.Count(s, "/")]. *)
Fixpoint countSlash (s : string) : nat :=
  match s with
  | EmptyString => O
  | String a s' => ((if Ascii.eqb a "/" then 1 else 0) + countSlash s')%nat
  end.

(** [s[:i]] and [s[i+1:]] for [i = strings.Index(s, "/")]. *)
Fixpoint cutSlash (s : string) : string * string :=
  match s with
  | EmptyString => (EmptyString, EmptyString)
  | String a s' =>
      if Ascii.eqb a "/" then (EmptyString, s')
      else let '(l, r) := cutSlash s' in (String a l, r)
  end.

(** Modelled from the spec: [schema.ParseGroupVersion], whose file is not
    among the sources.  Section 3 derives the group and version of an
    object from its [apiVersion] entry; the tests fix the shape: ["v"] is
    the version [v] of the empty group, ["a/b"] is group [a], version [b].
    A string with more than one slash is not a group/version. *)
Definition ParseGroupVersion (gv : string) : GroupVersion + error :=
  if (String.length gv =? 0)%nat || String.eqb gv "/" then
    inl {| gvGroup := ""; gvVersion := "" |}
  else
    match countSlash gv with
    | O => inl {| gvGroup := ""; gvVersion := gv |}
    | S O => let '(g, v) := cutSlash gv in inl {| gvGroup := g; gvVersion := v |}
    | _ => inr (errorString ("unexpected GroupVersion string: " +:+ gv))
    end.

(** Modelled from the spec: [schema.FromAPIVersionAndKind] (not among the
    sources), the GVK of a pair of [apiVersion] and [kind] strings. *)
Definition FromAPIVersionAndKind (apiVersion kind : string) : GroupVersionKind :=
  match ParseGroupVersion apiVersion with
  | inl gv => {| Group := gvGroup gv; Version := gvVersion gv; Kind := kind |}
  | inr _ => {| Group := ""; Version := ""; Kind := kind |}
  end.

End schema.

(** ** Untyped values: what an [interface{}] holds after a decode *)

Inductive Value : Type :=
| VNil
| VBool (b : bool)
| VInt (i : Z)                      (* int64 *)
| VFloat (bits : Z)                 (* float64, by its IEEE 754 bit pattern *)
| VString (s : string)
| VSlice (l : list Value)           (* []interface{} *)
| VMap (m : gmap string Value).     (* map[string]interface{} *)

(** ** Package [modes]: the decode modes *)

Module modes.

(** Option values of the CBOR library that the configuration names.  The
    first constructor of each type is the zero value of the Go type. *)
Inductive DupMapKeyMode := DupMapKeyQuiet | DupMapKeyEnforcedAPF.
Inductive DecTagMode := DecTagIgnored | DecTagOptional | DecTagRequired.
Inductive IndefLengthMode := IndefLengthAllowed | IndefLengthForbidden.
Inductive TagsMode := TagsAllowed | TagsForbidden.
Inductive IntDecMode := IntDecConvertNone | IntDecConvertSigned.
Inductive MapKeyByteStringMode :=
  MapKeyByteStringAllowed | MapKeyByteStringForbidden.
Inductive UTF8Mode := UTF8RejectInvalid | UTF8DecodeInvalid.
Inductive MapType := MapStringInterface | MapInterfaceInterface.

(** [ExtraDecErrorCond] is a bit set. *)
Definition ExtraDecErrorNone : Z := 0.
Definition ExtraDecErrorUnknownField : Z := 1.

Record DecOptions : Type :=
  { DupMapKey : DupMapKeyMode;
    TimeTag : DecTagMode;
    MaxNestedLevels : Z;
    MaxArrayElements : Z;
    MaxMapPairs : Z;
    IndefLength : IndefLengthMode;
    TagsMd : TagsMode;
    IntDec : IntDecMode;
    MapKeyByteString : MapKeyByteStringMode;
    ExtraReturnErrors : Z;
    DefaultMapType : option MapType;
    UTF8 : UTF8Mode }.

(** A [cbor.DecMode] is the immutable set of options it was built from. *)
Record DecMode : Type := { options : DecOptions }.

(** [DecOptions.DecMode()].  The library validates the options; the source
    panics on an error, which the options below do not cause. *)
Definition DecMode_of (opts : DecOptions) : DecMode := {| options := opts |}.

(** [DecMode.DecOptions()].  As the source notes, the library does not
    give back [DefaultMapType]. *)
Definition DecOptions_of (dm : DecMode) : DecOptions :=
  let o := options dm in
  {| DupMapKey := DupMapKey o; TimeTag := TimeTag o;
     MaxNestedLevels := MaxNestedLevels o;
     MaxArrayElements := MaxArrayElements o; MaxMapPairs := MaxMapPairs o;
     IndefLength := IndefLength o; TagsMd := TagsMd o; IntDec := IntDec o;
     MapKeyByteString := MapKeyByteString o;
     ExtraReturnErrors := ExtraReturnErrors o;
     DefaultMapType := None; UTF8 := UTF8 o |}.

Definition Decode : DecMode :=
  DecMode_of
    {| DupMapKey := DupMapKeyEnforcedAPF;
       TimeTag := DecTagOptional;
       MaxNestedLevels := 64;
       MaxArrayElements := 1024;
       MaxMapPairs := 1024;
       IndefLength := IndefLengthAllowed;
       TagsMd := TagsAllowed;
       IntDec := IntDecConvertSigned;
       MapKeyByteString := MapKeyByteStringForbidden;
       ExtraReturnErrors := ExtraDecErrorUnknownField;
       DefaultMapType := Some MapStringInterface;
       UTF8 := UTF8RejectInvalid |}.

(** [DecodeLax] is derived from [Decode]: the unknown-field bit is cleared
    ([&^]) and [DefaultMapType] is set again. *)
Definition DecodeLax : DecMode :=
  let opts := DecOptions_of Decode in
  DecMode_of
    {| DupMapKey := DupMapKey opts; TimeTag := TimeTag opts;
       MaxNestedLevels := MaxNestedLevels opts;
       MaxArrayElements := MaxArrayElements opts;
       MaxMapPairs := MaxMapPairs opts;
       IndefLength := IndefLength opts; TagsMd := TagsMd opts;
       IntDec := IntDec opts; MapKeyByteString := MapKeyByteString opts;
       ExtraReturnErrors :=
         Z.ldiff (ExtraReturnErrors opts) ExtraDecErrorUnknownField;
       DefaultMapType := Some MapStringInterface;
       UTF8 := UTF8 opts |}.

(** Whether a mode reports unknown fields. *)
Definition unknownFieldErrors (dm : DecMode) : bool :=
  Z.testbit (ExtraReturnErrors (options dm)) 0.

End modes.

(** [DecMode.Unmarshal(data, v)] at a destination type [T]: the new state of
    the destination and the error.  The CBOR library is not among the
    sources; the serializer is embedded over any implementation. *)
Class Unmarshaler (T : Type) : Type :=
  Unmarshal : modes.DecMode -> bytes -> T -> T * option error.

(** ** Package [metav1] *)

Module metav1.

Record TypeMeta : Type := { Kind : string; APIVersion : string }.

(** Modelled from the spec: [TypeMeta.GroupVersionKind] (section 4.3: the
    GVK is extracted from the two keys [apiVersion] and [kind]). *)
Definition GroupVersionKind (tm : TypeMeta) : schema.GroupVersionKind :=
  schema.FromAPIVersionAndKind (APIVersion tm) (Kind tm).

End metav1.

(** ** Package [runtime] *)

Module runtime.

(** A [runtime.Object] either implements [runtime.Unstructured], and then
    exposes its content mapping, or is a structured value of type [Typed]. *)
Inductive Object (Typed : Type) : Type :=
| Unstructured (content : gmap string Value)
| Structured (o : Typed).
Arguments Unstructured {Typed} content.
Arguments Structured {Typed} o.

Definition NestedString (m : gmap string Value) (field : string) : string :=
  match m !! field with
  | Some (VString s) => s
  | _ => EmptyString
  end.

(** Modelled from the spec: [Unstructured.GroupVersionKind] (section 3: the
    GVK of an unstructured object is derived from the [apiVersion] and
    [kind] entries of its mapping). *)
Definition UnstructuredGroupVersionKind (content : gmap string Value)
  : schema.GroupVersionKind :=
  match schema.ParseGroupVersion (NestedString content "apiVersion") with
  | inr _ => schema.Empty
  | inl gv =>
      {| schema.Group := schema.gvGroup gv;
         schema.Version := schema.gvVersion gv;
         schema.Kind := NestedString content "kind" |}
  end.

(** The interfaces [runtime.ObjectTyper] and [runtime.ObjectCreater]. *)
Record ObjectTyper (Typed : Type) : Type :=
  { ObjectKinds : Object Typed -> (list schema.GroupVersionKind * bool) + error }.
Arguments ObjectKinds {Typed} _ _.

Record ObjectCreater (Typed : Type) : Type :=
  { New : schema.GroupVersionKind -> Object Typed + error }.
Arguments New {Typed} _ _.

(** Modelled from the spec: [runtime.UseOrCreateObject] (section 4.4, target
    selection): the caller's object is used when the registry lists the
    effective GVK among its kinds, otherwise a new object is instantiated
    for that GVK.  The boolean tells whether the result is the caller's
    object (the same pointer) or a new one. *)
Definition UseOrCreateObject {Typed} (t : ObjectTyper Typed)
    (c : ObjectCreater Typed) (gvk : schema.GroupVersionKind)
    (obj : option (Object Typed)) : (Object Typed * bool) + error :=
  let create :=
    match New c gvk with
    | inl o => inl (o, false)
    | inr e => inr e
    end in
  match obj with
  | Some o =>
      match ObjectKinds t o with
      | inr e => inr e
      | inl (kinds, _) =>
          if existsb (schema.eqb gvk) kinds then inl (o, true) else create
      end
  | None => create
  end.

Definition NewMissingKindErr (data : string) : error := missingKindErr data.
Definition NewMissingVersionErr (data : string) : error := missingVersionErr data.
Definition NewStrictDecodingError (errors : list error) : error :=
  strictDecodingError errors.

Definition IsMissingKind (err : option error) : bool :=
  match err with Some (missingKindErr _) => true | _ => false end.
Definition IsMissingVersion (err : option error) : bool :=
  match err with Some (missingVersionErr _) => true | _ => false end.
Definition IsStrictDecodingError (err : option error) : bool :=
  match err with Some (strictDecodingError _) => true | _ => false end.
Definition IsNotRegisteredError (err : option error) : bool :=
  match err with Some (notRegisteredErr _) => true | _ => false end.

End runtime.

(** ** [io.Writer] *)

Class Writer (W : Type) : Type :=
  Write : W -> bytes -> W * (Z * option error).

(** [bytes.Buffer]: every write appends and succeeds. *)
Record Buffer : Type := { Bytes : bytes }.

#[global] Instance Buffer_Writer : Writer Buffer :=
  fun b p => ({| Bytes := Bytes b ++ p |}, (Z.of_nat (length p), None)).

(** The [stubWriter] of the tests: a fixed answer, nothing kept. *)
Record stubWriter : Type := { stub_n : Z; stub_err : option error }.

#[global] Instance stubWriter_Writer : Writer stubWriter :=
  fun w _ => (w, (stub_n w, stub_err w)).

(** A writer that forwards to [inner] and keeps the arguments of the calls
    made so far, oldest first. *)
Record Recorder (W : Type) : Type := { inner : W; calls : list bytes }.
Arguments inner {W} _.
Arguments calls {W} _.

#[global] Instance Recorder_Writer {W} `{!Writer W} : Writer (Recorder W) :=
  fun r p =>
    let '(w, res) := Write (inner r) p in
    ({| inner := w; calls := calls r ++ [p] |}, res).

(** [EncMode.Marshal(v)] at a source type [T]; the encode mode is not among
    the sources and the serializer is embedded over any implementation. *)
Class Marshaler (T : Type) : Type :=
  Marshal : T -> bytes + error.

(** Modelled from the spec: [Encoder.Encode] of the CBOR library (section
    2, data flow of encode: the canonical encoder produces the bytes that go
    to the writer): the item is encoded as a whole and handed to the writer;
    when the encoding fails nothing is written. *)
Definition Encoder_Encode {T W} `{!Marshaler T, !Writer W} (w : W) (v : T)
  : W * option error :=
  match Marshal v with
  | inr e => (w, Some e)
  | inl b => let '(w, (_, err)) := Write w b in (w, err)
  end.

(** ** Package [cbor]: the serializer *)

Module cbor.

Import runtime.

Record metaFactory : Type :=
  { Interpret : bytes -> schema.GroupVersionKind + error }.

Record options : Type := { strict : bool }.

Definition Option : Type := options -> options.

Definition Strict (s : bool) : Option := fun _ => {| strict := s |}.

Record serializer (Typed : Type) : Type :=
  { s_metaFactory : metaFactory;
    s_creater : ObjectCreater Typed;
    s_typer : ObjectTyper Typed;
    s_options : options }.
Arguments s_metaFactory {Typed} _.
Arguments s_creater {Typed} _.
Arguments s_typer {Typed} _.
Arguments s_options {Typed} _.

(** What [Decode] hands back: the three results of the Go function, and the
    state in which the call leaves the object the caller passed as [into]. *)
Record Decoded (Typed : Type) : Type :=
  { obj : option (Object Typed);
    gvk : option schema.GroupVersionKind;
    err : option error;
    into' : option (Object Typed) }.
Arguments obj {Typed} _.
Arguments gvk {Typed} _.
Arguments err {Typed} _.
Arguments into' {Typed} _.

Definition selfDescribedTag : bytes := [xd9; xd9; xf7].

(** [gvkWithDefaults] returns group kind and version defaulting from the
    provided default. *)
Definition gvkWithDefaults (actual defaultGVK : schema.GroupVersionKind)
  : schema.GroupVersionKind :=
  let actual :=
    if (String.length (schema.Kind actual) =? 0)%nat
    then schema.setKind actual (schema.Kind defaultGVK) else actual in
  let actual :=
    if (String.length (schema.Version actual) =? 0)%nat
       && (String.length (schema.Group actual) =? 0)%nat
    then schema.setVersion (schema.setGroup actual (schema.Group defaultGVK))
           (schema.Version defaultGVK)
    else actual in
  let actual :=
    if (String.length (schema.Version actual) =? 0)%nat
       && String.eqb (schema.Group actual) (schema.Group defaultGVK)
    then schema.setVersion actual (schema.Version defaultGVK) else actual in
  actual.

Section serializer.

Context {Typed : Type}.
Context `{!Unmarshaler metav1.TypeMeta, !Unmarshaler (gmap string Value),
          !Unmarshaler Typed}.
Context `{!Marshaler (gmap string Value), !Marshaler (Object Typed)}.

(** [modes.Diagnostic.Diagnose] of the CBOR library. *)
Variable Diagnose : bytes -> string + error.

Definition defaultMetaFactory : metaFactory :=
  {| Interpret data :=
       let tm := {| metav1.Kind := ""; metav1.APIVersion := "" |} in
       match Unmarshal modes.DecodeLax data tm with
       | (_, Some err) =>
           inr (wrapError "unable to determine group/version/kind" err)
       | (tm, None) => inl (metav1.GroupVersionKind tm)
       end |}.

Definition newSerializer (mf : metaFactory) (creater : ObjectCreater Typed)
    (typer : ObjectTyper Typed) (opts : list Option) : serializer Typed :=
  {| s_metaFactory := mf; s_creater := creater; s_typer := typer;
     s_options := fold_left (fun o f => f o) opts {| strict := false |} |}.

Definition NewSerializer (creater : ObjectCreater Typed)
    (typer : ObjectTyper Typed) (opts : list Option) : serializer Typed :=
  newSerializer defaultMetaFactory creater typer opts.

Definition Identifier (s : serializer Typed) : string := "cbor".

Definition Encode {W} `{!Writer W} (s : serializer Typed)
    (obj : Object Typed) (w : W) : W * option error :=
  let '(w, (_, err)) := Write w selfDescribedTag in
  match err with
  | Some e => (w, Some e)
  | None =>
      match obj with
      | Unstructured content => Encoder_Encode w content
      | _ => Encoder_Encode w obj
      end
  end.

(** [diagnose] returns the diagnostic encoding of a well-formed CBOR data
    item, or its hexadecimal form when the library fails. *)
Definition diagnose (data : bytes) : string :=
  match Diagnose data with
  | inl diag => diag
  | inr _ => EncodeToString data
  end.

(** The body of [unmarshal] after the destination has been chosen: the pair
    of the strict and the lax error, and the new state of the destination. *)
Definition unmarshalInto {T} `{!Unmarshaler T} (s : serializer Typed)
    (data : bytes) (into : T) : T * (option error * option error) :=
  if negb (strict (s_options s)) then
    let '(into, lax) := Unmarshal modes.DecodeLax data into in
    (into, (None, lax))
  else
    let '(into, err) := Unmarshal modes.Decode data into in
    match err with
    | Some (UnknownFieldError Index) =>
        let '(into, lax) := Unmarshal modes.DecodeLax data into in
        (into, (Some (NewStrictDecodingError [UnknownFieldError Index]), lax))
    | _ => (into, (None, err))
    end.

(** [unmarshal]: for an unstructured object the destination is a new nil
    mapping, which the deferred [SetUnstructuredContent] stores in the
    object however the decode ends. *)
Definition unmarshal (s : serializer Typed) (data : bytes)
    (into : Object Typed) : Object Typed * (option error * option error) :=
  match into with
  | Unstructured _ =>
      let content : gmap string Value := ∅ in
      let '(content, errs) := unmarshalInto s data content in
      (Unstructured content, errs)
  | Structured o =>
      let '(o, errs) := unmarshalInto s data o in
      (Structured o, errs)
  end.

Definition Decode (s : serializer Typed) (data : bytes)
    (gvk : option schema.GroupVersionKind) (into : option (Object Typed))
  : option (Decoded Typed) :=
  match Interpret (s_metaFactory s) data with
  | inr err =>
      Some {| obj := None; gvk := None; err := Some err; into' := into |}
  | inl actual =>
      let actual :=
        match gvk with
        | Some gvk => gvkWithDefaults actual gvk
        | None => actual
        end in
      (* the statements that follow the [if into != nil] block *)
      let rest (actual : schema.GroupVersionKind) : option (Decoded Typed) :=
        if (String.length (schema.Kind actual) =? 0)%nat then
          Some {| obj := None; gvk := Some actual;
                  err := Some (NewMissingKindErr (diagnose data));
                  into' := into |}
        else if (String.length (schema.Version actual) =? 0)%nat then
          Some {| obj := None; gvk := Some actual;
                  err := Some (NewMissingVersionErr (diagnose data));
                  into' := into |}
        else
          match UseOrCreateObject (s_typer s) (s_creater s) actual into with
          | inr err =>
              Some {| obj := None; gvk := Some actual; err := Some err;
                      into' := into |}
          | inl (o, isInto) =>
              let '(o, (strict, err)) := unmarshal s data o in
              let into := if isInto then Some o else into in
              match err with
              | Some err =>
                  Some {| obj := None; gvk := Some actual; err := Some err;
                          into' := into |}
              | None =>
                  Some {| obj := Some o; gvk := Some actual; err := strict;
                          into' := into |}
              end
          end in
      match into with
      | Some (Unstructured _ as u) =>
          let '(u, (_, err)) := unmarshal s data u in
          match err with
          | Some err =>
              Some {| obj := None; gvk := Some actual; err := Some err;
                      into' := Some u |}
          | None =>
              let actual :=
                match u with
                | Unstructured content => UnstructuredGroupVersionKind content
                | Structured _ => actual
                end in
              if (String.length (schema.Kind actual) =? 0)%nat then
                Some {| obj := None; gvk := Some actual;
                        err := Some (NewMissingKindErr (diagnose data));
                        into' := Some u |}
              else if (String.length (schema.Version actual) =? 0)%nat then
                Some {| obj := None; gvk := Some actual;
                        err := Some (NewMissingVersionErr (diagnose data));
                        into' := Some u |}
              else
                Some {| obj := Some u; gvk := Some actual; err := None;
                        into' := Some u |}
          end
      | Some o =>
          match ObjectKinds (s_typer s) o with
          | inr err =>
              Some {| obj := None; gvk := Some actual; err := Some err;
                      into' := into |}
          | inl (types, _) =>
              match types with
              | [] => None (* types[0]: index out of range *)
              | t0 :: _ => rest (gvkWithDefaults actual t0)
              end
          end
      | None => rest actual
      end
  end.

Definition RecognizesData (s : serializer Typed) (data : bytes)
  : bool * bool * option error :=
  (HasPrefix data selfDescribedTag, false, None).

End serializer.

End cbor.

(** ** A reference CBOR decoder

    The CBOR library that the serializer calls is vendored and its files
    are not part of the development.  This module gives one implementation
    of the [Unmarshaler] interface, following the decode profile of section
    4.1 of the specification and RFC 8949; the options it reads are those of
    [modes.DecOptions]. *)

Module refcbor.

Notation "'let*' x := m 'in' k" :=
  (match m with inl x => k | inr e => inr e end)
  (at level 10, x pattern, m at level 200, k at level 200, only parsing).

(** CBOR data items (RFC 8949, section 3). *)
Inductive item : Type :=
| Uint (n : Z)                    (* major type 0 *)
| Nint (n : Z)                    (* major type 1, the integer -1 - n *)
| ByteString (b : bytes)          (* major type 2 *)
| TextString (b : bytes)          (* major type 3 *)
| Array (l : list item)           (* major type 4 *)
| Map (l : list (item * item))    (* major type 5 *)
| Tag (t : Z) (i : item)          (* major type 6 *)
| Simple (n : Z)                  (* major type 7, simple values *)
| Float (width : Z) (bits : Z).   (* major type 7, floats of 2, 4, 8 bytes *)

(** *** Well-formedness: from bytes to a data item *)

Definition takeN (n : Z) (bs : bytes) : (bytes * bytes) + error :=
  if Z.of_nat (length bs) <? n then inr ErrUnexpectedEOF
  else inl (take (Z.to_nat n) bs, drop (Z.to_nat n) bs).

(** The head of an item: major type, additional information, argument. *)
Definition parseHead (bs : bytes) : (Z * Z * Z * bytes) + error :=
  match bs with
  | [] => inr ErrUnexpectedEOF
  | b :: rest =>
      let mt := Z.shiftr (byteZ b) 5 in
      let ai := Z.land (byteZ b) 31 in
      if ai <? 24 then inl (mt, ai, ai, rest)
      else if ai =? 31 then inl (mt, ai, 0, rest)
      else if 28 <=? ai then
        inr (SyntaxError "cbor: invalid additional information")
      else
        let* (arg, rest) := takeN (Z.shiftl 1 (ai - 24)) rest in
        inl (mt, ai, fromBigEndian 0 arg, rest)
  end.

Definition isBreak (bs : bytes) : option bytes :=
  match bs with
  | b :: rest => if bool_decide (b = xff) then Some rest else None
  | [] => None
  end.

Section sequences.

Variable p : bytes -> (item * bytes) + error.

Fixpoint parseN (n : nat) (bs : bytes) : (list item * bytes) + error :=
  match n with
  | O => inl ([], bs)
  | S n =>
      let* (x, bs) := p bs in
      let* (xs, bs) := parseN n bs in
      inl (x :: xs, bs)
  end.

Fixpoint parsePairsN (n : nat) (bs : bytes)
  : (list (item * item) * bytes) + error :=
  match n with
  | O => inl ([], bs)
  | S n =>
      let* (k, bs) := p bs in
      let* (v, bs) := p bs in
      let* (xs, bs) := parsePairsN n bs in
      inl ((k, v) :: xs, bs)
  end.

(** Indefinite-length sequences end at the break byte; [fuel] bounds the
    number of elements by the number of bytes left. *)
Fixpoint parseUntilBreak (fuel : nat) (bs : bytes)
  : (list item * bytes) + error :=
  match isBreak bs with
  | Some rest => inl ([], rest)
  | None =>
      match fuel with
      | O => inr ErrUnexpectedEOF
      | S fuel =>
          let* (x, bs) := p bs in
          let* (xs, bs) := parseUntilBreak fuel bs in
          inl (x :: xs, bs)
      end
  end.

Fixpoint parsePairsUntilBreak (fuel : nat) (bs : bytes)
  : (list (item * item) * bytes) + error :=
  match isBreak bs with
  | Some rest => inl ([], rest)
  | None =>
      match fuel with
      | O => inr ErrUnexpectedEOF
      | S fuel =>
          let* (k, bs) := p bs in
          let* (v, bs) := p bs in
          let* (xs, bs) := parsePairsUntilBreak fuel bs in
          inl ((k, v) :: xs, bs)
      end
  end.

End sequences.

(** The chunks of an indefinite-length string: definite-length strings of
    the same major type, up to the break byte. *)
Fixpoint parseChunks (mt : Z) (fuel : nat) (bs : bytes)
  : (bytes * bytes) + error :=
  match isBreak bs with
  | Some rest => inl ([], rest)
  | None =>
      match fuel with
      | O => inr ErrUnexpectedEOF
      | S fuel =>
          let* (mt', ai, arg, bs) := parseHead bs in
          if negb (mt' =? mt) || (ai =? 31) then
            inr (SyntaxError "cbor: wrong element type for indefinite-length string")
          else
            let* (chunk, bs) := takeN arg bs in
            let* (more, bs) := parseChunks mt fuel bs in
            inl (chunk ++ more, bs)
      end
  end.

Section decoder.

(** The options of the decode mode in use. *)
Variable opts : modes.DecOptions.

(** Modelled from the spec: the well-formedness pass of the library
    (section 4.1: indefinite-length items are accepted; nesting deeper than
    [MaxNestedLevels] and arrays or maps longer than [MaxArrayElements],
    [MaxMapPairs] are rejected).  [levels] is the number of nesting levels
    still allowed. *)
Fixpoint parseItem (levels : nat) (bs : bytes) : (item * bytes) + error :=
  let* (mt, ai, arg, rest) := parseHead bs in
  let indef := ai =? 31 in
  let indefOk :=
    match modes.IndefLength opts with
    | modes.IndefLengthAllowed => true
    | modes.IndefLengthForbidden => false
    end in
  let nested (k : nat -> (item * bytes) + error) : (item * bytes) + error :=
    match levels with
    | O => inr (MaxLimitError "cbor: exceeded max nested level")
    | S levels => k levels
    end in
  match mt with
  | 0 =>
      if indef then inr (SyntaxError "cbor: invalid additional information")
      else inl (Uint arg, rest)
  | 1 =>
      if indef then inr (SyntaxError "cbor: invalid additional information")
      else inl (Nint arg, rest)
  | 2 =>
      if indef then
        if indefOk then
          let* (b, rest) := parseChunks 2 (length rest) rest in
          inl (ByteString b, rest)
        else inr (SyntaxError "cbor: indefinite-length byte string isn't allowed")
      else
        let* (b, rest) := takeN arg rest in inl (ByteString b, rest)
  | 3 =>
      if indef then
        if indefOk then
          let* (b, rest) := parseChunks 3 (length rest) rest in
          inl (TextString b, rest)
        else inr (SyntaxError "cbor: indefinite-length text string isn't allowed")
      else
        let* (b, rest) := takeN arg rest in inl (TextString b, rest)
  | 4 =>
      nested (fun levels =>
        let* (l, rest) :=
          if indef then
            if indefOk then
              parseUntilBreak (parseItem levels) (length rest) rest
            else inr (SyntaxError "cbor: indefinite-length array isn't allowed")
          else if modes.MaxArrayElements opts <? arg then
            inr (MaxLimitError "cbor: exceeded max number of elements for CBOR array")
          else parseN (parseItem levels) (Z.to_nat arg) rest in
        if modes.MaxArrayElements opts <? Z.of_nat (length l) then
          inr (MaxLimitError "cbor: exceeded max number of elements for CBOR array")
        else inl (Array l, rest))
  | 5 =>
      nested (fun levels =>
        let* (l, rest) :=
          if indef then
            if indefOk then
              parsePairsUntilBreak (parseItem levels) (length rest) rest
            else inr (SyntaxError "cbor: indefinite-length map isn't allowed")
          else if modes.MaxMapPairs opts <? arg then
            inr (MaxLimitError "cbor: exceeded max number of key-value pairs for CBOR map")
          else parsePairsN (parseItem levels) (Z.to_nat arg) rest in
        if modes.MaxMapPairs opts <? Z.of_nat (length l) then
          inr (MaxLimitError "cbor: exceeded max number of key-value pairs for CBOR map")
        else inl (Map l, rest))
  | 6 =>
      if indef then inr (SyntaxError "cbor: invalid additional information")
      else
        match modes.TagsMd opts with
        | modes.TagsForbidden => inr (SyntaxError "cbor: CBOR tag isn't allowed")
        | modes.TagsAllowed =>
            nested (fun levels =>
              let* (i, rest) := parseItem levels rest in
              inl (Tag arg i, rest))
        end
  | _ =>
      if ai <? 24 then inl (Simple ai, rest)
      else if ai =? 24 then
        if arg <? 32 then inr (SyntaxError "cbor: invalid simple value")
        else inl (Simple arg, rest)
      else if indef then inr (SyntaxError "cbor: unexpected break")
      else inl (Float (Z.shiftl 1 (ai - 24)) arg, rest)
  end.

(** *** Floats: widening a half or single precision pattern to float64 *)

(** Bits of the float64 with sign bit [s], unbiased exponent [e] and 52-bit
    fraction [frac]. *)
Definition float64bits (s e frac : Z) : Z :=
  Z.lor (Z.shiftl s 63) (Z.lor (Z.shiftl (e + 1023) 52) frac).

(** A subnormal [m * 2^(-k)] (with [m > 0]) is normal as a float64. *)
Definition widenSubnormal (s m k : Z) : Z :=
  let p := Z.log2 m in
  float64bits s (p - k) (Z.shiftl (m - Z.shiftl 1 p) (52 - p)).

Definition float16to64 (h : Z) : Z :=
  let s := Z.shiftr h 15 in
  let e := Z.land (Z.shiftr h 10) 31 in
  let m := Z.land h 1023 in
  if e =? 0 then
    if m =? 0 then Z.shiftl s 63 else widenSubnormal s m 24
  else if e =? 31 then float64bits s 1024 (Z.shiftl m 42)
  else float64bits s (e - 15) (Z.shiftl m 42).

Definition float32to64 (f : Z) : Z :=
  let s := Z.shiftr f 31 in
  let e := Z.land (Z.shiftr f 23) 255 in
  let m := Z.land f 8388607 in
  if e =? 0 then
    if m =? 0 then Z.shiftl s 63 else widenSubnormal s m 149
  else if e =? 255 then float64bits s 1024 (Z.shiftl m 29)
  else float64bits s (e - 127) (Z.shiftl m 29).

Definition floatTo64 (width bits : Z) : Z :=
  if width =? 2 then float16to64 bits
  else if width =? 4 then float32to64 bits
  else bits.

(** *** UTF-8 *)

Definition cont (b : byte) : bool := (128 <=? byteZ b) && (byteZ b <=? 191).
Definition within (lo hi : Z) (b : byte) : bool :=
  (lo <=? byteZ b) && (byteZ b <=? hi).

(** [utf8.Valid]: well-formed sequences only (no overlong forms, no
    surrogates, nothing above U+10FFFF).  [fuel] is the length of the
    input. *)
Fixpoint utf8Valid (fuel : nat) (bs : bytes) : bool :=
  match fuel with
  | O => bool_decide (bs = [])
  | S fuel =>
      match bs with
      | [] => true
      | b0 :: bs1 =>
          if byteZ b0 <? 128 then utf8Valid fuel bs1
          else if within 194 223 b0 then
            match bs1 with
            | b1 :: r => cont b1 && utf8Valid fuel r
            | _ => false
            end
          else if within 224 239 b0 then
            match bs1 with
            | b1 :: b2 :: r =>
                (if byteZ b0 =? 224 then within 160 191 b1
                 else if byteZ b0 =? 237 then within 128 159 b1
                 else cont b1)
                && cont b2 && utf8Valid fuel r
            | _ => false
            end
          else if within 240 244 b0 then
            match bs1 with
            | b1 :: b2 :: b3 :: r =>
                (if byteZ b0 =? 240 then within 144 191 b1
                 else if byteZ b0 =? 244 then within 128 143 b1
                 else cont b1)
                && cont b2 && cont b3 && utf8Valid fuel r
            | _ => false
            end
          else false
      end
  end.

(** *** Validity: from a data item to a Go value *)

Definition maxInt64 : Z := 9223372036854775807.

Definition decodeText (b : bytes) : string + error :=
  match modes.UTF8 opts with
  | modes.UTF8RejectInvalid =>
      if utf8Valid (length b) b then inl (to_string b)
      else inr (SemanticError "cbor: invalid UTF-8 string")
  | modes.UTF8DecodeInvalid => inl (to_string b)
  end.

(** A map key must be a text string or a byte string. *)
Definition keyString (k : item) : string + error :=
  match k with
  | TextString b => decodeText b
  | ByteString b => inl (to_string b)
  | _ => inr (UnmarshalTypeError "cbor: map key is not a string")
  end.

Definition decodeInt (negative : bool) (n : Z) : Z + error :=
  let limit :=
    match modes.IntDec opts with
    | modes.IntDecConvertSigned => maxInt64
    | modes.IntDecConvertNone => if negative then maxInt64 else 2 * maxInt64 + 1
    end in
  if limit <? n then
    inr (UnmarshalTypeError "cbor: integer overflows the destination")
  else inl (if negative then -1 - n else n).

Definition enforceDupMapKey : bool :=
  match modes.DupMapKey opts with
  | modes.DupMapKeyEnforcedAPF => true
  | modes.DupMapKeyQuiet => false
  end.

(** Modelled from the spec: decoding into an untyped destination (section
    4.1, decode mode): integers become int64 and an overflow is rejected;
    text strings are checked for UTF-8; byte strings are accepted as
    strings; map keys must be strings and duplicates are rejected; maps
    become [map[string]interface{}]; bignums (tags 2 and 3) are rejected
    and other unrecognised tags are skipped; of the simple values only
    false, true and null are accepted.  A time tagged 0 is its RFC 3339
    string; epoch times (tag 1) need calendar arithmetic and are rejected
    by this model. *)
Fixpoint decodeValue (i : item) : Value + error :=
  match i with
  | Uint n => let* z := decodeInt false n in inl (VInt z)
  | Nint n => let* z := decodeInt true n in inl (VInt z)
  | ByteString b => inl (VString (to_string b))
  | TextString b => let* s := decodeText b in inl (VString s)
  | Array l =>
      let* vs :=
        (fix elements (l : list item) : list Value + error :=
           match l with
           | [] => inl []
           | x :: l =>
               let* v := decodeValue x in
               let* vs := elements l in
               inl (v :: vs)
           end) l in
      inl (VSlice vs)
  | Map es =>
      match modes.DefaultMapType opts with
      | Some modes.MapStringInterface =>
          let* m :=
            (fix entries (es : list (item * item)) (acc : gmap string Value)
               : gmap string Value + error :=
               match es with
               | [] => inl acc
               | (k, v) :: es =>
                   let* name := keyString k in
                   if enforceDupMapKey && bool_decide (is_Some (acc !! name))
                   then inr (DupMapKeyError name)
                   else
                     let* x := decodeValue v in
                     entries es (<[name := x]> acc)
               end) es ∅ in
          inl (VMap m)
      | _ => inr (UnmarshalTypeError "cbor: map keys of this kind have no Go value here")
      end
  | Tag t i =>
      if (t =? 2) || (t =? 3) then
        inr (UnmarshalTypeError "cbor: bignum cannot be decoded to interface{}")
      else if t =? 1 then
        inr (UnmarshalTypeError "cbor: epoch time is outside this model")
      else if t =? 0 then
        match i with
        | TextString b => let* s := decodeText b in inl (VString s)
        | _ => inr (UnmarshalTypeError "cbor: tag number 0 must be followed by text string")
        end
      else decodeValue i
  | Simple n =>
      if n =? 20 then inl (VBool false)
      else if n =? 21 then inl (VBool true)
      else if n =? 22 then inl VNil
      else inr (UnmarshalTypeError "cbor: simple value is not recognized")
  | Float width bits => inl (VFloat (floatTo64 width bits))
  end.

End decoder.

(** Typed destinations: the Go values a structured object is made of. *)
Inductive GoVal : Type :=
| GInterface (v : Value)                   (* interface{} *)
| GString (s : string)
| GBool (b : bool)
| GInt64 (i : Z)
| GStruct (fields : list (string * GoVal)). (* fields by their JSON names *)

Fixpoint lookupField (name : string) (fs : list (string * GoVal))
  : option GoVal :=
  match fs with
  | [] => None
  | (n, v) :: fs => if String.eqb n name then Some v else lookupField name fs
  end.

Fixpoint setField (name : string) (new : GoVal) (fs : list (string * GoVal))
  : list (string * GoVal) :=
  match fs with
  | [] => []
  | (n, v) :: fs =>
      if String.eqb n name then (n, new) :: fs
      else (n, v) :: setField name new fs
  end.

Section fields.

Variable opts : modes.DecOptions.
Variable decode : item -> GoVal -> GoVal * option error.

(** Modelled from the spec: decoding a map into a structure (section 4.1):
    the entry [j] whose key names no field is an unknown-field error in
    strict mode and is skipped in lax mode; a duplicate key is rejected in
    both. *)
Fixpoint decodeFields (es : list (item * item)) (j : nat)
    (seen : list string) (fs : list (string * GoVal))
  : list (string * GoVal) * option error :=
  match es with
  | [] => (fs, None)
  | (k, v) :: es =>
      match keyString opts k with
      | inr e => (fs, Some e)
      | inl name =>
          if enforceDupMapKey opts && bool_decide (name ∈ seen) then
            (fs, Some (DupMapKeyError name))
          else
            match lookupField name fs with
            | None =>
                if Z.testbit (modes.ExtraReturnErrors opts) 0 then
                  (fs, Some (UnknownFieldError j))
                else decodeFields es (S j) (name :: seen) fs
            | Some cur =>
                let '(new, err) := decode v cur in
                let fs := setField name new fs in
                match err with
                | Some e => (fs, Some e)
                | None => decodeFields es (S j) (name :: seen) fs
                end
            end
      end
  end.

End fields.

Definition typeError (dst : GoVal) : GoVal * option error :=
  (dst, Some (UnmarshalTypeError "cbor: cannot unmarshal into Go value")).

Section typed.

Variable opts : modes.DecOptions.

(** Modelled from the spec: decoding into a typed destination (section
    4.1): an item decodes to the destination type or is rejected; tags are
    skipped; a structure takes a map (section 4.3: anything else fails). *)
Fixpoint decodeInto (i : item) (dst : GoVal) : GoVal * option error :=
  match dst with
  | GInterface _ =>
      match decodeValue opts i with
      | inl v => (GInterface v, None)
      | inr e => (dst, Some e)
      end
  | _ =>
      match i with
      | Tag _ i => decodeInto i dst
      | Map es =>
          match dst with
          | GStruct fs =>
              let '(fs, err) := decodeFields opts decodeInto es 0 [] fs in
              (GStruct fs, err)
          | _ => typeError dst
          end
      | TextString b =>
          match dst with
          | GString _ =>
              match decodeText opts b with
              | inl s => (GString s, None)
              | inr e => (dst, Some e)
              end
          | _ => typeError dst
          end
      | ByteString b =>
          match dst with
          | GString _ => (GString (to_string b), None)
          | _ => typeError dst
          end
      | Uint n =>
          match dst with
          | GInt64 _ =>
              match decodeInt opts false n with
              | inl z => (GInt64 z, None)
              | inr e => (dst, Some e)
              end
          | _ => typeError dst
          end
      | Nint n =>
          match dst with
          | GInt64 _ =>
              match decodeInt opts true n with
              | inl z => (GInt64 z, None)
              | inr e => (dst, Some e)
              end
          | _ => typeError dst
          end
      | Simple n =>
          match dst with
          | GBool _ =>
              if n =? 20 then (GBool false, None)
              else if n =? 21 then (GBool true, None)
              else typeError dst
          | _ => typeError dst
          end
      | _ => typeError dst
      end
  end.

End typed.

(** Decoding into a [map[string]interface{}]: the item must be a map; its
    entries are stored in the destination. *)
Definition decodeContent (opts : modes.DecOptions) (i : item)
    (dst : gmap string Value) : gmap string Value * option error :=
  match decodeValue opts i with
  | inl (VMap m) => (m ∪ dst, None)
  | inl _ =>
      (dst, Some (UnmarshalTypeError "cbor: cannot unmarshal into Go value of type map[string]interface {}"))
  | inr e => (dst, Some e)
  end.

(** Modelled from the spec: [DecMode.Unmarshal] (sections 4.1 and 7): the
    input must hold exactly one well-formed data item, which is then
    decoded into the destination; any failure is fatal to the call.  No
    input at all is [io.EOF]. *)
Definition unmarshalItem {T}
    (decode : modes.DecOptions -> item -> T -> T * option error)
    (dm : modes.DecMode) (data : bytes) (dst : T) : T * option error :=
  let opts := modes.options dm in
  match data with
  | [] => (dst, Some EOF)
  | _ =>
      match parseItem opts (Z.to_nat (modes.MaxNestedLevels opts)) data with
      | inr e => (dst, Some e)
      | inl (i, []) => decode opts i dst
      | inl (_, _ :: _) => (dst, Some ExtraneousDataError)
      end
  end.

Definition TypeMeta_fields (tm : metav1.TypeMeta) : list (string * GoVal) :=
  [("kind", GString (metav1.Kind tm));
   ("apiVersion", GString (metav1.APIVersion tm))].

Definition fieldString (name : string) (fs : list (string * GoVal))
    (old : string) : string :=
  match lookupField name fs with
  | Some (GString s) => s
  | _ => old
  end.

Definition decodeTypeMeta (opts : modes.DecOptions) (i : item)
    (tm : metav1.TypeMeta) : metav1.TypeMeta * option error :=
  match decodeInto opts i (GStruct (TypeMeta_fields tm)) with
  | (GStruct fs, err) =>
      ({| metav1.Kind := fieldString "kind" fs (metav1.Kind tm);
          metav1.APIVersion := fieldString "apiVersion" fs (metav1.APIVersion tm) |},
       err)
  | (_, err) => (tm, err)
  end.

#[global] Instance Unmarshaler_GoVal : Unmarshaler GoVal :=
  unmarshalItem decodeInto.
#[global] Instance Unmarshaler_content : Unmarshaler (gmap string Value) :=
  unmarshalItem decodeContent.
#[global] Instance Unmarshaler_TypeMeta : Unmarshaler metav1.TypeMeta :=
  unmarshalItem decodeTypeMeta.

(** *** Encoding *)

(** The head of an item, with the shortest argument. *)
Definition encodeHead (mt : Z) (n : Z) : bytes :=
  let ib (ai : Z) := Zbyte (Z.lor (Z.shiftl mt 5) ai) in
  if n <? 24 then [ib n]
  else if n <? 256 then ib 24 :: bigEndian 1 n
  else if n <? 65536 then ib 25 :: bigEndian 2 n
  else if n <? 4294967296 then ib 26 :: bigEndian 4 n
  else ib 27 :: bigEndian 8 n.

Definition isNaN64 (bits : Z) : bool :=
  (Z.land (Z.shiftr bits 52) 2047 =? 2047)
  && negb (Z.land bits 4503599627370495 =? 0).

Definition isZero64 (bits : Z) : bool := Z.land bits maxInt64 =? 0.

(** The Go comparison [a == b] of two float64: a NaN equals nothing, the
    two zeros are equal. *)
Definition floatEq64 (a b : Z) : bool :=
  negb (isNaN64 a) && negb (isNaN64 b)
  && ((a =? b) || (isZero64 a && isZero64 b)).

(** [float32(f)] on bit patterns, rounding toward zero: exact whenever the
    value has a single-precision representation, which is all the packing
    below asks of it. *)
Definition float64to32 (bits : Z) : Z :=
  let s := Z.shiftl (Z.shiftr bits 63) 31 in
  let e := Z.land (Z.shiftr bits 52) 2047 in
  let m := Z.land bits 4503599627370495 in
  if e =? 0 then s
  else if e =? 2047 then Z.lor s (Z.lor (Z.shiftl 255 23) (Z.shiftr m 29))
  else
    let E := e - 1023 in
    if 127 <? E then Z.lor s (Z.shiftl 255 23)
    else if -126 <=? E then Z.lor s (Z.lor (Z.shiftl (E + 127) 23) (Z.shiftr m 29))
    else if -149 <=? E then Z.lor s (Z.shiftr (4503599627370496 + m) (-97 - E))
    else s.

(** The half-precision pattern of a single-precision one, rounding toward
    zero. *)
Definition float32to16 (f : Z) : Z :=
  let s := Z.shiftl (Z.shiftr f 31) 15 in
  let e := Z.land (Z.shiftr f 23) 255 in
  let m := Z.land f 8388607 in
  if e =? 0 then s
  else if e =? 255 then Z.lor s (Z.lor (Z.shiftl 31 10) (Z.shiftr m 13))
  else
    let E := e - 127 in
    if 15 <? E then Z.lor s (Z.shiftl 31 10)
    else if -14 <=? E then Z.lor s (Z.lor (Z.shiftl (E + 15) 10) (Z.shiftr m 13))
    else if -24 <=? E then Z.lor s (Z.shiftr (8388608 + m) (-1 - E))
    else s.

(** Modelled from the spec: float packing (section 4.1, encode mode):
    floats are packed into the smallest width that preserves the value,
    half precision if exact, else single, else double; a shorter
    representation must reconstitute the exact original value.  The
    double-to-single step compares floats, as Go's [==] does, so that no NaN
    passes it; with [canonicalNaN] every NaN is written as the half
    precision quiet NaN instead. *)
Definition encodeFloat (canonicalNaN : bool) (bits : Z) : bytes :=
  if canonicalNaN && isNaN64 bits then [xf9; x7e; x00]
  else
    let f32 := float64to32 bits in
    if floatEq64 (float32to64 f32) bits then
      let h := float32to16 f32 in
      if float16to64 h =? float32to64 f32 then xf9 :: bigEndian 2 h
      else xfa :: bigEndian 4 f32
    else xfb :: bigEndian 8 bits.

(** Bytewise lexical order. *)
Fixpoint bytesLe (a b : bytes) : bool :=
  match a, b with
  | [], _ => true
  | _ :: _, [] => false
  | x :: a, y :: b =>
      if byteZ x <? byteZ y then true
      else if byteZ y <? byteZ x then false
      else bytesLe a b
  end.

Fixpoint insertEntry (e : bytes * bytes) (l : list (bytes * bytes))
  : list (bytes * bytes) :=
  match l with
  | [] => [e]
  | x :: l' => if bytesLe e.1 x.1 then e :: l else x :: insertEntry e l'
  end.

Definition sortEntries (l : list (bytes * bytes)) : list (bytes * bytes) :=
  foldr insertEntry [] l.

(** Options of an encoder: whether strings are written as byte strings,
    whether floats are packed, and whether every NaN is written as
    [f97e00]. *)
Record EncOptions : Type :=
  { stringToRaw : bool; packFloats : bool; canonicalNaN : bool }.

(** Modelled from the spec: the canonical encoder (section 4.1, encode
    mode): definite lengths only, map entries sorted by the bytewise order
    of their encoded keys, floats packed, strings written as byte
    strings. *)
Fixpoint encodeValue (o : EncOptions) (v : Value) : bytes :=
  match v with
  | VNil => [xf6]
  | VBool b => [if b then xf5 else xf4]
  | VInt i => if i <? 0 then encodeHead 1 (-1 - i) else encodeHead 0 i
  | VFloat bits =>
      if packFloats o then encodeFloat (canonicalNaN o) bits
      else xfb :: bigEndian 8 bits
  | VString s =>
      encodeHead (if stringToRaw o then 2 else 3)
        (Z.of_nat (length (of_string s))) ++ of_string s
  | VSlice l =>
      encodeHead 4 (Z.of_nat (length l)) ++ concat (map (encodeValue o) l)
  | VMap m =>
      let encoded : gmap string bytes := encodeValue o <$> m in
      let entries :=
        sortEntries
          (map (fun kv : string * bytes =>
                  (encodeHead (if stringToRaw o then 2 else 3)
                     (Z.of_nat (length (of_string kv.1))) ++ of_string kv.1,
                   kv.2))
             (map_to_list encoded)) in
      encodeHead 5 (Z.of_nat (length entries))
      ++ concat (map (fun kv : bytes * bytes => kv.1 ++ kv.2) entries)
  end.

(** The untyped value of a typed one, a structure becoming the mapping of
    its fields. *)
Fixpoint toValue (g : GoVal) : Value :=
  match g with
  | GInterface v => v
  | GString s => VString s
  | GBool b => VBool b
  | GInt64 i => VInt i
  | GStruct fs =>
      VMap ((fix fields (fs : list (string * GoVal)) : gmap string Value :=
               match fs with
               | [] => ∅
               | (n, v) :: fs => <[n := toValue v]> (fields fs)
               end) fs)
  end.

(** The encode mode of the specification: byte strings, packed floats,
    canonical NaN. *)
Definition Encode : EncOptions :=
  {| stringToRaw := true; packFloats := true; canonicalNaN := true |}.

#[global] Instance Marshaler_content : Marshaler (gmap string Value) :=
  fun m => inl (encodeValue Encode (VMap m)).

#[global] Instance Marshaler_Object : Marshaler (runtime.Object GoVal) :=
  fun o =>
    match o with
    | runtime.Unstructured m => inl (encodeValue Encode (VMap m))
    | runtime.Structured g => inl (encodeValue Encode (toValue g))
    end.

End refcbor.

(** ** The earlier serializer, built on the codec library

    Before the serializer above, [Serializer.Encode] wrote the tag and then
    ran the encoder of the codec library under a handle with the options
    [Canonical], [StringToRaw] and [OptimumSize]. *)

Module codec.

Record EncodeOptions : Type :=
  { Canonical : bool; StringToRaw : bool; OptimumSize : bool }.

Record CborHandle : Type := { EncodeOptions_ : EncodeOptions }.

Definition handle : CborHandle :=
  {| EncodeOptions_ :=
       {| Canonical := true; StringToRaw := true; OptimumSize := true |} |}.

(** The [passthrough] object of the tests wraps an arbitrary value; its
    [CodecEncodeSelf] encodes the value. *)
Record passthrough : Type := { Value_ : Value }.

(** Modelled from the spec: the encoder of the codec library under the
    handle's options (section 4.1: canonical map order, strings as byte
    strings, floats packed into the smallest width that preserves the
    value).  The library has no rule for NaN apart from the packing. *)
Definition encode (h : CborHandle) (v : Value) : bytes :=
  refcbor.encodeValue
    {| refcbor.stringToRaw := StringToRaw (EncodeOptions_ h);
       refcbor.packFloats := OptimumSize (EncodeOptions_ h);
       refcbor.canonicalNaN := false |} v.

Record Serializer : Type := {}.

Definition NewSerializer : Serializer := Build_Serializer.

(** [Serializer.Encode]: the self-described tag, then
    [codec.NewEncoder(w, &handle).Encode(obj)]. *)
Definition Encode {W} `{!Writer W} (s : Serializer) (obj : passthrough)
    (w : W) : W * option error :=
  let '(w, (_, err)) := Write w [xd9; xd9; xf7] in
  match err with
  | Some e => (w, Some e)
  | None => let '(w, (_, err)) := Write w (encode handle (Value_ obj)) in (w, err)
  end.

End codec.

(** ** Package [apiextensions/v1]: the polymorphic schema values *)

(** [json.Marshal], [json.Unmarshal] and the [Marshal], [Unmarshal] of
    package [cbor/direct], at a Go type [T].  The codecs are not part of the
    development; the methods below are embedded over any implementation.
    An [Unmarshal] gives the new state of the destination and the error. *)
Class JSONMarshal (T : Type) : Type := json_Marshal : T -> bytes + error.
Class JSONUnmarshal (T : Type) : Type :=
  json_Unmarshal : bytes -> T -> T * option error.
Class CBORMarshal (T : Type) : Type := cbor_Marshal : T -> bytes + error.
Class CBORUnmarshal (T : Type) : Type :=
  cbor_Unmarshal : bytes -> T -> T * option error.

Module apiextensions.


(** Modelled from the spec: the package variable [nullLiteral], declared in
    a file outside the development (section 4.5: the literal [null]). *)
Definition nullLiteral : bytes := of_string "null".

Definition cborNull : bytes := [xf6].

Section marshal.

(** The schema type, declared outside the development, and its zero
    value. *)
Variable JSONSchemaProps : Type.
Variable zeroProps : JSONSchemaProps.

Context `{!JSONMarshal (option JSONSchemaProps), !JSONUnmarshal JSONSchemaProps,
          !JSONMarshal (list string), !JSONUnmarshal (list string),
          !JSONMarshal (list JSONSchemaProps),
          !JSONUnmarshal (list JSONSchemaProps),
          !JSONMarshal Value, !JSONUnmarshal Value}.
Context `{!CBORMarshal (option JSONSchemaProps), !CBORUnmarshal JSONSchemaProps,
          !CBORMarshal bool, !CBORUnmarshal bool,
          !CBORMarshal (list string), !CBORUnmarshal (list string),
          !CBORMarshal (list JSONSchemaProps),
          !CBORUnmarshal (list JSONSchemaProps),
          !CBORMarshal Value, !CBORUnmarshal Value}.

(** A pointer to a schema is an [option]; a slice is a [list], the nil slice
    being the empty list. *)
Record JSONSchemaPropsOrBool : Type :=
  { Allows : bool; Schema : option JSONSchemaProps }.

Record JSONSchemaPropsOrStringArray : Type :=
  { SchemaSA : option JSONSchemaProps; Property : list string }.

Record JSONSchemaPropsOrArray : Type :=
  { SchemaA : option JSONSchemaProps; JSONSchemas : list JSONSchemaProps }.

Record JSON : Type := { Raw : bytes }.

(** [first] of the two array types: the first byte when the input is longer
    than one byte, zero otherwise. *)
Definition firstByte (data : bytes) : byte :=
  match data with
  | b :: _ :: _ => b
  | _ => x00
  end.

(** *** [JSONSchemaPropsOrBool] *)


Definition JSONSchemaPropsOrBool_UnmarshalJSON (s : JSONSchemaPropsOrBool)
    (data : bytes) : JSONSchemaPropsOrBool * option error :=
  let nw := {| Allows := false; Schema := None |} in
  match data with
  | [] => (nw, None)
  | b :: _ =>
      if bool_decide (b = x7b) then
        let '(sch, err) := json_Unmarshal data zeroProps in
        match err with
        | Some e => (s, Some e)
        | None => ({| Allows := true; Schema := Some sch |}, None)
        end
      else if (length data =? 4)%nat && bool_decide (data = of_string "true") then
        ({| Allows := true; Schema := None |}, None)
      else if (length data =? 5)%nat && bool_decide (data = of_string "false") then
        ({| Allows := false; Schema := None |}, None)
      else (s, Some (errorString "boolean or JSON schema expected"))
  end.


Definition JSONSchemaPropsOrBool_UnmarshalCBOR (s : JSONSchemaPropsOrBool)
    (data : bytes) : JSONSchemaPropsOrBool * option error :=
  match cbor_Unmarshal data false with
  | (b, None) => ({| Allows := b; Schema := None |}, None)
  | (_, Some _) =>
      match cbor_Unmarshal data zeroProps with
      | (_, Some e) => (s, Some e)
      | (p, None) => ({| Allows := true; Schema := Some p |}, None)
      end
  end.

(** *** [JSONSchemaPropsOrStringArray] *)


Definition JSONSchemaPropsOrStringArray_UnmarshalJSON
    (s : JSONSchemaPropsOrStringArray) (data : bytes)
  : JSONSchemaPropsOrStringArray * option error :=
  let first := firstByte data in
  let nw := {| SchemaSA := None; Property := [] |} in
  let step1 :=
    if bool_decide (first = x7b) then
      let '(sch, err) := json_Unmarshal data zeroProps in
      match err with
      | Some e => inr e
      | None => inl {| SchemaSA := Some sch; Property := Property nw |}
      end
    else inl nw in
  match step1 with
  | inr e => (s, Some e)
  | inl nw =>
      if bool_decide (first = x5b) then
        let '(property, err) := json_Unmarshal data (Property nw) in
        match err with
        | Some e => (s, Some e)
        | None => ({| SchemaSA := SchemaSA nw; Property := property |}, None)
        end
      else (nw, None)
  end.


Definition JSONSchemaPropsOrStringArray_UnmarshalCBOR
    (s : JSONSchemaPropsOrStringArray) (data : bytes)
  : JSONSchemaPropsOrStringArray * option error :=
  match cbor_Unmarshal data ([] : list string) with
  | (a, None) => ({| SchemaSA := None; Property := a |}, None)
  | (_, Some _) =>
      match cbor_Unmarshal data zeroProps with
      | (_, Some e) => (s, Some e)
      | (p, None) => ({| SchemaSA := Some p; Property := [] |}, None)
      end
  end.

(** *** [JSONSchemaPropsOrArray] *)


Definition JSONSchemaPropsOrArray_UnmarshalJSON (s : JSONSchemaPropsOrArray)
    (data : bytes) : JSONSchemaPropsOrArray * option error :=
  let nw := {| SchemaA := None; JSONSchemas := [] |} in
  let first := firstByte data in
  let step1 :=
    if bool_decide (first = x7b) then
      let '(sch, err) := json_Unmarshal data zeroProps in
      match err with
      | Some e => inr e
      | None => inl {| SchemaA := Some sch; JSONSchemas := JSONSchemas nw |}
      end
    else inl nw in
  match step1 with
  | inr e => (s, Some e)
  | inl nw =>
      if bool_decide (first = x5b) then
        let '(schemas, err) := json_Unmarshal data (JSONSchemas nw) in
        match err with
        | Some e => (s, Some e)
        | None => ({| SchemaA := SchemaA nw; JSONSchemas := schemas |}, None)
        end
      else (nw, None)
  end.


Definition JSONSchemaPropsOrArray_UnmarshalCBOR (s : JSONSchemaPropsOrArray)
    (data : bytes) : JSONSchemaPropsOrArray * option error :=
  match cbor_Unmarshal data zeroProps with
  | (p, None) => ({| SchemaA := Some p; JSONSchemas := [] |}, None)
  | (_, Some _) =>
      match cbor_Unmarshal data ([] : list JSONSchemaProps) with
      | (_, Some e) => (s, Some e)
      | (a, None) => ({| SchemaA := None; JSONSchemas := a |}, None)
      end
  end.

(** *** [JSON] *)


Definition JSON_UnmarshalJSON (s : JSON) (data : bytes) : JSON * option error :=
  if (0 <? length data)%nat && negb (bool_decide (data = nullLiteral)) then
    ({| Raw := data |}, None)
  else (s, None).


Definition JSON_UnmarshalCBOR (s : JSON) (data : bytes) : JSON * option error :=
  if bool_decide (data = cborNull) then (s, None)
  else
    match cbor_Unmarshal data VNil with
    | (_, Some e) => (s, Some e)
    | (u, None) =>
        match json_Marshal u with
        | inr e => (s, Some e)
        | inl raw => ({| Raw := raw |}, None)
        end
    end.

End marshal.

End apiextensions.

(** ** The stubs of the serializer's tests *)

Module cbortest.

Import runtime.

Record stubTyper : Type :=
  { gvks : list schema.GroupVersionKind; unversioned : bool;
    typerErr : option error }.

Definition stubTyper_ObjectTyper {Typed} (t : stubTyper) : ObjectTyper Typed :=
  {| ObjectKinds _ :=
       match typerErr t with
       | Some e => inr e
       | None => inl (gvks t, unversioned t)
       end |}.

Record stubCreater (Typed : Type) : Type :=
  { createrObj : Object Typed; createrErr : option error }.
Arguments createrObj {Typed} _.
Arguments createrErr {Typed} _.

Definition stubCreater_ObjectCreater {Typed} (c : stubCreater Typed)
  : ObjectCreater Typed :=
  {| New _ :=
       match createrErr c with
       | Some e => inr e
       | None => inl (createrObj c)
       end |}.

Definition notRegisteredTyper {Typed} : ObjectTyper Typed :=
  {| ObjectKinds _ := inr (notRegisteredErr "test") |}.

Record stubMetaFactory : Type :=
  { stubGVK : schema.GroupVersionKind; metaErr : option error }.

Definition stubMetaFactory_metaFactory (mf : stubMetaFactory) : cbor.metaFactory :=
  {| cbor.Interpret _ :=
       match metaErr mf with
       | Some e => inr e
       | None => inl (stubGVK mf)
       end |}.

(** [anyObject] wraps an arbitrary value. *)
Definition anyObject (v : Value) : Object refcbor.GoVal :=
  Structured (refcbor.GInterface v).

(** [metav1.PartialObjectMetadata{}], reduced to the type meta and three
    fields of the object meta. *)
Definition PartialObjectMetadata : Object refcbor.GoVal :=
  Structured
    (refcbor.GStruct
       [("kind", refcbor.GString "");
        ("apiVersion", refcbor.GString "");
        ("metadata",
         refcbor.GStruct
           [("name", refcbor.GString "");
            ("namespace", refcbor.GString "");
            ("generation", refcbor.GInt64 0)])]).

(** No diagnostic notation here: [diagnose] falls back to hexadecimal. *)
Definition noDiagnose (data : bytes) : string + error :=
  inr (errorString "diagnostic notation is not available").

Definition xyz : schema.GroupVersionKind :=
  {| schema.Group := "x"; schema.Version := "y"; schema.Kind := "z" |}.

(** The serializer of a test case: a stub meta factory that answers the
    empty GVK, a creater that fails, a typer that answers [x/y/z]. *)
Definition testSerializer (opts : list cbor.Option)
  : cbor.serializer refcbor.GoVal :=
  cbor.newSerializer
    (stubMetaFactory_metaFactory {| stubGVK := schema.Empty; metaErr := None |})
    (stubCreater_ObjectCreater
       {| createrObj := anyObject VNil; createrErr := Some (errorString "test") |})
    (stubTyper_ObjectTyper
       {| gvks := [xyz]; unversioned := false; typerErr := None |})
    opts.

(** The entries ['apiVersion': 'v'] and ['kind': 'k'] of a CBOR map, keys
    and values being text strings. *)
Definition apiVersion_v : bytes :=
  [x6a] ++ of_string "apiVersion" ++ [x61] ++ of_string "v".
Definition kind_k : bytes := [x64] ++ of_string "kind" ++ [x61] ++ of_string "k".

End cbortest.

(** ** Notions used to state the properties *)

Module props.

Import runtime cbor.



(** The same serializer with another [strict] option. *)
Definition withStrict {Typed} (b : bool) (s : serializer Typed)
  : serializer Typed :=
  {| s_metaFactory := s_metaFactory s; s_creater := s_creater s;
     s_typer := s_typer s; s_options := {| strict := b |} |}.

(** [decodedBy data o]: [o] is the state in which a pass of the library over
    [data], in one of the two modes, left its destination without reporting
    an error. *)
Definition decodedBy {Typed}
    `{!Unmarshaler (gmap string Value), !Unmarshaler Typed}
    (data : bytes) (o : Object Typed) : Prop :=
  exists dm, (dm = modes.Decode \/ dm = modes.DecodeLax) /\
    match o with
    | Unstructured c => exists c0, Unmarshal dm data c0 = (c, None)
    | Structured t => exists t0, Unmarshal dm data t0 = (t, None)
    end.

(** The bytes begin with the self-described tag. *)
Definition tagged (data : bytes) : Prop :=
  exists rest, data = selfDescribedTag ++ rest.

(** The options of the two decode modes. *)
Definition strictOpts : modes.DecOptions := modes.options modes.Decode.
Definition laxOpts : modes.DecOptions := modes.options modes.DecodeLax.

(** The three results of a call of [Decode]. *)
Definition results {Typed} (r : Decoded Typed)
  : option (Object Typed) * option schema.GroupVersionKind * option error :=
  (obj r, gvk r, err r).








(** The error of [Interpret]. *)
Definition interpretError (e : error) : error :=
  wrapError "unable to determine group/version/kind" e.

End props.

(** ** Notions used to state the round trips *)

Module roundtrip.





Section unions.

Import apiextensions.

Variable JSONSchemaProps : Type.
Variable zeroProps : JSONSchemaProps.

Context `{!JSONMarshal (option JSONSchemaProps), !JSONUnmarshal JSONSchemaProps,
          !JSONMarshal (list string), !JSONUnmarshal (list string),
          !JSONMarshal (list JSONSchemaProps),
          !JSONUnmarshal (list JSONSchemaProps),
          !JSONMarshal Value, !JSONUnmarshal Value}.
Context `{!CBORMarshal (option JSONSchemaProps), !CBORUnmarshal JSONSchemaProps,
          !CBORMarshal bool, !CBORUnmarshal bool,
          !CBORMarshal (list string), !CBORUnmarshal (list string),
          !CBORMarshal (list JSONSchemaProps),
          !CBORUnmarshal (list JSONSchemaProps),
          !CBORMarshal Value, !CBORUnmarshal Value}.

Abbreviation OrBool := (JSONSchemaPropsOrBool JSONSchemaProps).
Abbreviation OrStringArray := (JSONSchemaPropsOrStringArray JSONSchemaProps).
Abbreviation OrArray := (JSONSchemaPropsOrArray JSONSchemaProps).









End unions.

End roundtrip.

(** ** A small codec for the examples

    JSON and CBOR codecs for a schema type reduced to one field, for lists
    of strings and of schemas, and for untyped values.  The JSON side
    accepts the forms it writes (no escapes, no white space); the CBOR side
    is the reference encoder and decoder. *)

Module samplecodec.

(** [JSONSchemaProps], reduced to its [nullable] field. *)
Record Props : Type := { Nullable : bool }.

Definition zeroProps : Props := {| Nullable := false |}.

Definition unsupported {A} : A + error := inr (errorString "unsupported").

(** *** JSON *)

Definition quote (b : bytes) : bytes := x22 :: b ++ [x22].

(** A string that needs no escaping and holds no comma. *)
Definition plain (b : bytes) : bool :=
  forallb (fun x => negb (bool_decide (x ∈ [x22; x2c; x5c]))) b.

Fixpoint join (l : list bytes) : bytes :=
  match l with
  | [] => []
  | [x] => x
  | x :: l => x ++ x2c :: join l
  end.

Fixpoint splitComma (b : bytes) : list bytes :=
  match b with
  | [] => [[]]
  | x :: b =>
      if bool_decide (x = x2c) then [] :: splitComma b
      else
        match splitComma b with
        | h :: t => (x :: h) :: t
        | [] => [[x]]
        end
  end.

(** The text between a first byte [l] and a last byte [r]. *)
Definition between (l r : byte) (b : bytes) : option bytes :=
  match b with
  | x :: b =>
      match reverse b with
      | y :: inner =>
          if bool_decide (x = l) && bool_decide (y = r) then Some (reverse inner)
          else None
      | [] => None
      end
  | [] => None
  end.

Definition elements (b : bytes) : option (list bytes) :=
  match between x5b x5d b with
  | Some [] => Some []
  | Some inner => Some (splitComma inner)
  | None => None
  end.

Definition nullableTrue : bytes :=
  [x7b] ++ quote (of_string "nullable") ++ of_string ":true}".
Definition nullableFalse : bytes :=
  [x7b] ++ quote (of_string "nullable") ++ of_string ":false}".

Definition propsJSON (p : Props) : bytes :=
  if Nullable p then nullableTrue else of_string "{}".

Definition parseProps (dst : Props) (b : bytes) : option Props :=
  if bool_decide (b = of_string "{}") then Some dst
  else if bool_decide (b = nullableTrue) then Some {| Nullable := true |}
  else if bool_decide (b = nullableFalse) then Some {| Nullable := false |}
  else None.

Definition parseString (b : bytes) : option string :=
  match between x22 x22 b with
  | Some inner => if plain inner then Some (to_string inner) else None
  | None => None
  end.

Definition syntaxError {A} (dst : A) : A * option error :=
  (dst, Some (SyntaxError "json: unexpected input")).

#[global] Instance json_marshal_props : JSONMarshal (option Props) :=
  fun p =>
    match p with
    | Some p => inl (propsJSON p)
    | None => inl (of_string "null")
    end.

#[global] Instance json_unmarshal_props : JSONUnmarshal Props :=
  fun data dst =>
    match parseProps dst data with
    | Some p => (p, None)
    | None => syntaxError dst
    end.

#[global] Instance json_marshal_strings : JSONMarshal (list string) :=
  fun l =>
    if forallb (fun s => plain (of_string s)) l then
      inl ([x5b] ++ join (map (fun s => quote (of_string s)) l) ++ [x5d])
    else unsupported.

#[global] Instance json_unmarshal_strings : JSONUnmarshal (list string) :=
  fun data dst =>
    match elements data with
    | Some parts =>
        match mapM parseString parts with
        | Some l => (l, None)
        | None => syntaxError dst
        end
    | None => syntaxError dst
    end.

#[global] Instance json_marshal_schemas : JSONMarshal (list Props) :=
  fun l => inl ([x5b] ++ join (map propsJSON l) ++ [x5d]).

#[global] Instance json_unmarshal_schemas : JSONUnmarshal (list Props) :=
  fun data dst =>
    match elements data with
    | Some parts =>
        match mapM (parseProps zeroProps) parts with
        | Some l => (l, None)
        | None => syntaxError dst
        end
    | None => syntaxError dst
    end.

#[global] Instance json_marshal_value : JSONMarshal Value :=
  fun v =>
    match v with
    | VNil => inl (of_string "null")
    | VBool b => inl (of_string (if b then "true" else "false"))
    | VString s => if plain (of_string s) then inl (quote (of_string s)) else unsupported
    | _ => unsupported
    end.

#[global] Instance json_unmarshal_value : JSONUnmarshal Value :=
  fun data dst =>
    if bool_decide (data = of_string "null") then (VNil, None)
    else if bool_decide (data = of_string "true") then (VBool true, None)
    else if bool_decide (data = of_string "false") then (VBool false, None)
    else
      match parseString data with
      | Some s => (VString s, None)
      | None => syntaxError dst
      end.

(** *** CBOR *)

Definition propsValue (p : Props) : Value :=
  VMap {["nullable" := VBool (Nullable p)]}.

Definition valueProps (v : Value) : option Props :=
  match v with
  | VMap m =>
      match map_to_list m with
      | [] => Some zeroProps
      | [(name, VBool b)] =>
          if String.eqb name "nullable" then Some {| Nullable := b |} else None
      | _ => None
      end
  | _ => None
  end.

Definition valueString (v : Value) : option string :=
  match v with
  | VString s => Some s
  | _ => None
  end.

Definition typeMismatch {A} (dst : A) : A * option error :=
  (dst, Some (UnmarshalTypeError "cbor: cannot unmarshal into Go value")).

(** Decoding a list: the item is decoded as an untyped value, which must be
    an array of elements of the right kind, or null for the nil slice. *)
Definition unmarshalList {A} (element : Value -> option A) (data : bytes)
    (dst : list A) : list A * option error :=
  match Unmarshal modes.Decode data (refcbor.GInterface VNil) with
  | (refcbor.GInterface (VSlice vs), None) =>
      match mapM element vs with
      | Some l => (l, None)
      | None => typeMismatch dst
      end
  | (refcbor.GInterface VNil, None) => ([], None)
  | (_, None) => typeMismatch dst
  | (_, Some e) => (dst, Some e)
  end.

#[global] Instance cbor_marshal_props : CBORMarshal (option Props) :=
  fun p =>
    match p with
    | Some p => inl (refcbor.encodeValue refcbor.Encode (propsValue p))
    | None => inl [xf6]
    end.

#[global] Instance cbor_unmarshal_props : CBORUnmarshal Props :=
  fun data dst =>
    match Unmarshal modes.Decode data
            (refcbor.GStruct [("nullable", refcbor.GBool (Nullable dst))]) with
    | (refcbor.GStruct [(_, refcbor.GBool b)], e) => ({| Nullable := b |}, e)
    | (_, e) => (dst, e)
    end.

#[global] Instance cbor_marshal_bool : CBORMarshal bool :=
  fun b => inl (refcbor.encodeValue refcbor.Encode (VBool b)).

#[global] Instance cbor_unmarshal_bool : CBORUnmarshal bool :=
  fun data dst =>
    match Unmarshal modes.Decode data (refcbor.GBool dst) with
    | (refcbor.GBool b, e) => (b, e)
    | (_, e) => (dst, e)
    end.

#[global] Instance cbor_marshal_strings : CBORMarshal (list string) :=
  fun l => inl (refcbor.encodeValue refcbor.Encode (VSlice (map VString l))).

#[global] Instance cbor_unmarshal_strings : CBORUnmarshal (list string) :=
  unmarshalList valueString.

#[global] Instance cbor_marshal_schemas : CBORMarshal (list Props) :=
  fun l => inl (refcbor.encodeValue refcbor.Encode (VSlice (map propsValue l))).

#[global] Instance cbor_unmarshal_schemas : CBORUnmarshal (list Props) :=
  unmarshalList valueProps.

#[global] Instance cbor_marshal_value : CBORMarshal Value :=
  fun v => inl (refcbor.encodeValue refcbor.Encode v).

#[global] Instance cbor_unmarshal_value : CBORUnmarshal Value :=
  fun data dst =>
    match Unmarshal modes.Decode data (refcbor.GInterface dst) with
    | (refcbor.GInterface v, e) => (v, e)
    | (_, e) => (dst, e)
    end.

End samplecodec.

(** ** Package [responsewriter]: skimming the status line of a response *)

Module responsewriter.

(** [bytes.IndexByte]: the index of the first [c] in [b], or -1. *)
Fixpoint IndexByte (b : bytes) (c : byte) : Z :=
  match b with
  | [] => -1
  | x :: b' =>
      if bool_decide (x = c) then 0
      else let i := IndexByte b' c in if i <? 0 then -1 else 1 + i
  end.

(** [bytes.Cut] with a separator of one byte: the text before and after
    the first separator, and whether there is one; without a separator,
    the whole text and nil. *)
Fixpoint Cut (s : bytes) (sep : byte) : bytes * bytes * bool :=
  match s with
  | [] => ([], [], false)
  | x :: s' =>
      if bool_decide (x = sep) then ([], s', true)
      else let '(before, after, found) := Cut s' sep in (x :: before, after, found)
  end.

(** [bytes.TrimLeft] with a cutset of one ASCII byte. *)
Fixpoint TrimLeft (s : bytes) (c : byte) : bytes :=
  match s with
  | [] => []
  | x :: s' => if bool_decide (x = c) then TrimLeft s' c else s
  end.

(** The slice expression [p[:n]].  Go allows it for [0 <= n <= cap(p)];
    the model keeps the length of a slice only and follows it for
    [0 <= n <= len(p)].  [None] stands for the rest: a run-time panic, or
    a slice that reaches into the capacity of [p]. *)
Definition sliceTo (p : bytes) (n : Z) : option bytes :=
  if (0 <=? n) && (n <=? Z.of_nat (length p)) then Some (take (Z.to_nat n) p)
  else None.

(** [line[:len(line)-1]] when the line ends in a carriage return. *)
Definition trimCR (line : bytes) : bytes :=
  match last line with
  | Some c => if bool_decide (c = x0d) then removelast line else line
  | None => line
  end.

(** The [Skimmer]: the connection it embeds, and what it has seen of the
    first line.  The lock serialises the calls; a call is modelled on its
    own. *)
Record Skimmer (C : Type) : Type :=
  { Conn : C; limit : Z; buffer : bytes; status : Z }.
Arguments Conn {C} _.
Arguments limit {C} _.
Arguments buffer {C} _.
Arguments status {C} _.

Definition Skim {C} (c : C) : Skimmer C :=
  {| Conn := c; limit := 64; buffer := []; status := 0 |}.

Definition Skimmer_Status {C} (rs : Skimmer C) : Z * bool :=
  if status rs <? 0 then (0, false) else (status rs, true).

Section Write.

Context {C : Type} `{!Writer C}.

(** [strconv.Atoi]: the number and the error. *)
Variable Atoi : string -> Z * option error.

Definition setStatus (rs : Skimmer C) (n : Z) : Skimmer C :=
  {| Conn := Conn rs; limit := limit rs; buffer := buffer rs; status := n |}.

Definition bufferWrite (rs : Skimmer C) (p : bytes) : Skimmer C :=
  {| Conn := Conn rs; limit := limit rs; buffer := buffer rs ++ p;
     status := status rs |}.

Definition bufferLen (rs : Skimmer C) : Z := Z.of_nat (length (buffer rs)).

Definition Skimmer_Write (rs : Skimmer C) (p : bytes)
  : option (Skimmer C * (Z * option error)) :=
  let '(c, (cn, cerr)) := Write (Conn rs) p in
  let rs := {| Conn := c; limit := limit rs; buffer := buffer rs;
               status := status rs |} in
  if negb (status rs =? 0) then Some (rs, (cn, cerr))
  else
    (* only examine bytes written to conn *)
    p ← sliceTo p cn;
    p ← (if limit rs <? bufferLen rs + Z.of_nat (length p)
         then sliceTo p (limit rs - bufferLen rs) else Some p);
    let i := IndexByte p x0a in
    if i <? 0 then
      let rs := bufferWrite rs p in
      let rs := if limit rs <=? bufferLen rs then setStatus rs (-1) else rs in
      Some (rs, (cn, cerr))
    else
      q ← sliceTo p i;
      let rs := bufferWrite rs q in (* intentionally discards \n *)
      let line := trimCR (buffer rs) in
      let '(_, status, ok) := Cut line x20 in
      if negb ok then Some (setStatus rs (-2), (cn, cerr))
      else
        let status := TrimLeft status x20 in
        let '(statusCode, _, _) := Cut status x20 in
        if negb (Z.of_nat (length statusCode) =? 3) then
          Some (setStatus rs (-3), (cn, cerr))
        else
          let '(n, err) := Atoi (to_string statusCode) in
          let rs := setStatus rs n in
          if bool_decide (is_Some err) || (responsewriter.status rs <? 0) then
            Some (setStatus rs (-4), (cn, cerr))
          else Some (rs, (cn, cerr)).

(** A run of calls of [Write], one chunk after the other, with the results
    of the calls. *)
Fixpoint Writes (rs : Skimmer C) (ps : list bytes)
  : option (Skimmer C * list (Z * option error)) :=
  match ps with
  | [] => Some (rs, [])
  | p :: ps =>
      '(rs, r) ← Skimmer_Write rs p;
      '(rs, rs_) ← Writes rs ps;
      Some (rs, r :: rs_)
  end.

End Write.

(** The fast path of [strconv.Atoi], which it takes for a string of fewer
    than 19 bytes: an optional sign, then decimal digits. *)
Definition digitsValue (s : bytes) : option Z :=
  foldl (fun acc ch =>
           n ← acc;
           let d := byteZ ch - 48 in
           if (0 <=? d) && (d <=? 9) then Some (n * 10 + d) else None)
        (Some 0) s.

Definition Atoi_small (s : string) : Z * option error :=
  let syntaxError := (0, Some (errorString "strconv.Atoi: invalid syntax")) in
  match of_string s with
  | [] => syntaxError
  | c :: rest =>
      let signed := bool_decide (c = x2d) || bool_decide (c = x2b) in
      let digits := if signed then rest else c :: rest in
      match digits with
      | [] => syntaxError
      | _ =>
          match digitsValue digits with
          | Some n => (if bool_decide (c = x2d) then - n else n, None)
          | None => syntaxError
          end
      end
  end.

End responsewriter.

(** ** Notions used to state the properties of the skimmer *)

Module skimming.

Import responsewriter.

(** The contract of [io.Writer]: a call reports a number of bytes between
    0 and the length of what it was given. *)
Definition obeysWriter (C : Type) `{!Writer C} : Prop :=
  forall (c : C) (p : bytes), 0 <= (Write c p).2.1 <= Z.of_nat (length p).

(** A connection that takes every byte it is given. *)
Definition takesAll (C : Type) `{!Writer C} : Prop :=
  forall (c : C) (p : bytes), (Write c p).2.1 = Z.of_nat (length p).

(** The calls of [Write] on the connection itself, and their results. *)
Fixpoint connWrites {C} `{!Writer C} (c : C) (ps : list bytes)
  : C * list (Z * option error) :=
  match ps with
  | [] => (c, [])
  | p :: ps =>
      let '(c, r) := Write c p in
      let '(c, rs) := connWrites c ps in
      (c, r :: rs)
  end.

(** The buffer holds no more than the limit, and less while the status is
    undecided. *)
Definition good {C} (rs : Skimmer C) : Prop :=
  bufferLen rs <= limit rs /\ (status rs = 0 -> bufferLen rs < limit rs).

(** What the skimmer has made of the bytes so far. *)
Definition skimmed {C} (rs : Skimmer C) : bytes * Z := (buffer rs, status rs).

(** The bytes of [p] that a call with an undecided status looks at: those
    the connection took, as far as the buffer has room. *)
Definition examined {C} `{!Writer C} (rs : Skimmer C) (p : bytes) : bytes :=
  take (Z.to_nat (limit rs - bufferLen rs))
    (take (Z.to_nat (Write (Conn rs) p).2.1) p).

(** The status that a first line stands for: the code after the first
    run of spaces, or a negative number for a line that has no space, whose
    code is not three bytes long, or is not a number that is not negative. *)
Definition lineStatus (Atoi : string -> Z * option error) (line : bytes) : Z :=
  let '(_, status, ok) := Cut (trimCR line) x20 in
  if negb ok then -2
  else
    let '(statusCode, _, _) := Cut (TrimLeft status x20) x20 in
    if negb (Z.of_nat (length statusCode) =? 3) then -3
    else
      let '(n, err) := Atoi (to_string statusCode) in
      if bool_decide (is_Some err) || (n <? 0) then -4 else n.

(** What a call with an undecided status makes of the bytes [e] it
    examines: they go to the buffer up to the first line feed, which
    decides the status; without a line feed a full buffer ends the
    skimming. *)
Definition skim (Atoi : string -> Z * option error) (limit : Z)
    (buffer e : bytes) : bytes * Z :=
  let '(line, _, found) := Cut e x0a in
  if found then (buffer ++ line, lineStatus Atoi (buffer ++ line))
  else (buffer ++ e,
        if limit <=? Z.of_nat (length (buffer ++ e)) then -1 else 0).

(** The status is undecided, or the skimmer has given up, or the status is
    the one that the buffered line stands for. *)
Definition decidedByLine {C} (Atoi : string -> Z * option error)
    (rs : Skimmer C) : Prop :=
  status rs = 0 \/ status rs = -1
  \/ status rs = lineStatus Atoi (buffer rs).

(** A status line: a protocol without a space, one or more spaces, a
    status code of three bytes, and nothing more or a space and a reason;
    at the end of the line, a line feed or a carriage return and a line
    feed. *)
Definition statusLine (proto : bytes) (spaces : nat) (code reason : bytes)
    (withReason withCR : bool) : bytes :=
  proto ++ [x20] ++ repeat x20 spaces ++ code
  ++ (if withReason then x20 :: reason else [])
  ++ (if withCR then [x0d; x0a] else [x0a]).

End skimming.

(** ** The form that unmarshalling gives the polymorphic schema values *)

Module unionforms.

Import apiextensions.

Section forms.

Variable JSONSchemaProps : Type.

(** A schema-or-bool with a schema allows. *)
Definition canonOrBool (v : JSONSchemaPropsOrBool JSONSchemaProps)
  : JSONSchemaPropsOrBool JSONSchemaProps :=
  {| Allows := match Schema _ v with Some _ => true | None => Allows _ v end;
     Schema := Schema _ v |}.

(** A schema-or-string-array with strings has no schema. *)
Definition canonOrStringArray (v : JSONSchemaPropsOrStringArray JSONSchemaProps)
  : JSONSchemaPropsOrStringArray JSONSchemaProps :=
  match Property _ v with
  | [] => v
  | _ :: _ => {| SchemaSA := None; Property := Property _ v |}
  end.

(** A schema-or-schema-array with schemas in the array has no single
    schema. *)
Definition canonOrArray (v : JSONSchemaPropsOrArray JSONSchemaProps)
  : JSONSchemaPropsOrArray JSONSchemaProps :=
  match JSONSchemas _ v with
  | [] => v
  | _ :: _ => {| SchemaA := None; JSONSchemas := JSONSchemas _ v |}
  end.

End forms.

(** An unmarshalling method that fails leaves its receiver as it was. *)
Definition failsClean {T} (f : T -> bytes -> T * option error) : Prop :=
  forall s data e, (f s data).2 = Some e -> (f s data).1 = s.

(** Whatever an unmarshalling method stores, when it succeeds, is in the
    form [canon]. *)
Definition storesForm {T} (f : T -> bytes -> T * option error)
    (canon : T -> T) : Prop :=
  forall s data v, f s data = (v, None) -> canon v = v.



End unionforms.

(** ** Package [features]: the adapter of client feature gates *)

(** [k8s.io/component-base/featuregate], as far as the adapter uses it. *)
Module featuregate.

Record FeatureSpec : Type :=
  { Default : bool; LockToDefault : bool; PreRelease : string }.

(** The interface [MutableFeatureGate]: the gate answers whether a feature
    is enabled, and takes new features, which changes it and can fail. *)
Class MutableFeatureGate (G : Type) : Type :=
  { Enabled : G -> string -> bool;
    Add : G -> gmap string FeatureSpec -> G * option error }.

End featuregate.

Module features.

Section adapter.

Context {G : Type} `{!featuregate.MutableFeatureGate G}.

(** The prerelease constants [featuregate.Alpha], [featuregate.Beta],
    [featuregate.GA] and [featuregate.Deprecated], declared outside the
    development. *)
Variables Alpha Beta GA Deprecated : string.

(** The type parameter [S] of the adapter: a structure of the client with
    the three fields of a feature specification; the names [N] and the
    prerelease values [P] are strings. *)
Record clientSpec : Type :=
  { Default : bool; LockToDefault : bool; PreRelease : string }.

Record clientAdapter : Type :=
  { mfg : G; palpha : string; pbeta : string; pga : string;
    pdeprecated : string }.

Definition newClientAdapter (mfg : G) (alpha beta ga deprecated : string)
  : clientAdapter :=
  {| mfg := mfg; palpha := alpha; pbeta := beta; pga := ga;
     pdeprecated := deprecated |}.

Definition clientAdapter_Enabled (a : clientAdapter) (name : string) : bool :=
  featuregate.Enabled (mfg a) name.

(** The body of the loop of [Add] for one specification: the converted
    specification, or [None] when the [switch] reaches its default case
    and panics.  The cases are tried in the order of the source. *)
Definition convert (a : clientAdapter) (spec : clientSpec)
  : option featuregate.FeatureSpec :=
  let converted (p : string) :=
    Some {| featuregate.Default := Default spec;
            featuregate.LockToDefault := LockToDefault spec;
            featuregate.PreRelease := p |} in
  if String.eqb (PreRelease spec) (palpha a) then converted Alpha
  else if String.eqb (PreRelease spec) (pbeta a) then converted Beta
  else if String.eqb (PreRelease spec) (pga a) then converted GA
  else if String.eqb (PreRelease spec) (pdeprecated a) then converted Deprecated
  else None.

(** The loop of [Add] over the entries of [in], in the order in which
    [range] yields them; [None] is the panic. *)
Fixpoint convertAll (a : clientAdapter)
    (out : gmap string featuregate.FeatureSpec)
    (entries : list (string * clientSpec))
  : option (gmap string featuregate.FeatureSpec) :=
  match entries with
  | [] => Some out
  | (name, spec) :: entries =>
      match convert a spec with
      | Some converted => convertAll a (<[name := converted]> out) entries
      | None => None
      end
  end.

(** [Add], for the order [entries] in which [range] yields the entries of
    the map [in]: the gate after the call and the error, or [None] for a
    panic. *)
Definition clientAdapter_Add (a : clientAdapter)
    (entries : list (string * clientSpec)) : option (G * option error) :=
  match convertAll a ∅ entries with
  | Some out => Some (featuregate.Add (mfg a) out)
  | None => None
  end.

End adapter.

End features.

(** A gate for the examples: it keeps the specifications it is given, a
    name it knows already being an error. *)
Module samplegate.

Record gate : Type := { known : gmap string featuregate.FeatureSpec }.

#[global] Instance gate_MutableFeatureGate : featuregate.MutableFeatureGate gate :=
  {| featuregate.Enabled g name :=
       match known g !! name with
       | Some spec => featuregate.Default spec
       | None => false
       end;
     featuregate.Add g features :=
       if bool_decide (dom features ## dom (known g)) then
         ({| known := features ∪ known g |}, None)
       else (g, Some (errorString "feature gate: a feature is declared twice")) |}.

End samplegate.

(** * Properties *)

(** ** Helper facts *)

Lemma length_zero_iff_empty (s : string) :
  (String.length s =? 0)%nat = bool_decide (s = "").
Proof. destruct s; reflexivity. Qed.

Lemma HasPrefix_spec (s prefix : bytes) :
  HasPrefix s prefix = true <-> exists rest, s = prefix ++ rest.
Proof.
  unfold HasPrefix. rewrite andb_true_iff, Nat.leb_le, bool_decide_eq_true.
  split.
  - intros [_ Htake]. exists (drop (length prefix) s).
    rewrite <- Htake at 1. symmetry. apply take_drop.
  - intros [rest ->]. split.
    + rewrite length_app. lia.
    + by rewrite take_app_length.
Qed.

(** ** The GVK defaulting *)

(** C3.  For every pair of GVKs, [gvkWithDefaults actual defaultGVK] fills
    the empty fields of [actual] with exactly this precedence: an empty Kind
    becomes the default's Kind; when Version and Group are both empty, both
    become the default's; otherwise, when Version is empty and Group equals
    the default's Group, Version becomes the default's Version; every other
    field is unchanged. *)
Theorem gvkWithDefaults_precedence (actual defaultGVK : schema.GroupVersionKind) :
  cbor.gvkWithDefaults actual defaultGVK =
  {| schema.Kind :=
       if decide (schema.Kind actual = "") then schema.Kind defaultGVK
       else schema.Kind actual;
     schema.Group :=
       if decide (schema.Version actual = "" /\ schema.Group actual = "")
       then schema.Group defaultGVK else schema.Group actual;
     schema.Version :=
       if decide (schema.Version actual = "" /\ schema.Group actual = "")
       then schema.Version defaultGVK
       else if decide (schema.Version actual = ""
                       /\ schema.Group actual = schema.Group defaultGVK)
            then schema.Version defaultGVK
            else schema.Version actual |}.
Proof.
  destruct actual as [g v k], defaultGVK as [dg dv dk].
  unfold cbor.gvkWithDefaults; cbn -[String.eqb].
  destruct k as [|kc k], v as [|vc v], g as [|gc g]; cbn -[String.eqb];
    repeat match goal with
      | |- context [String.eqb ?a ?b] => destruct (String.eqb_spec a b)
      end; cbn;
    repeat case_decide;
    try reflexivity; try (destruct dv; reflexivity);
    exfalso; intuition congruence.
Qed.

(** ** Recognising the self-described tag *)

(** C8.  For every input [data], [RecognizesData] answers
    [(true, false, nil)] if and only if [data] begins with the three bytes
    [d9 d9 f7], and [(false, false, nil)] otherwise; the unknown result is
    never true and the error is always nil. *)
Theorem RecognizesData_iff_tag {Typed} (s : cbor.serializer Typed) (data : bytes) :
  (cbor.RecognizesData s data = (true, false, None) <-> props.tagged data)
  /\ (cbor.RecognizesData s data = (false, false, None) <-> ~ props.tagged data)
  /\ (cbor.RecognizesData s data).1.2 = false
  /\ (cbor.RecognizesData s data).2 = None.
Proof.
  unfold cbor.RecognizesData, props.tagged.
  pose proof (HasPrefix_spec data cbor.selfDescribedTag) as Hspec.
  destruct (HasPrefix data cbor.selfDescribedTag) eqn:Hp; simpl.
  - repeat split; try done.
    + intros _. by apply Hspec.
    + intros Hn. exfalso. apply Hn. by apply Hspec.
  - repeat split; try done.
    + intros Ht. apply Hspec in Ht. discriminate.
    + intros _ Ht. apply Hspec in Ht. discriminate.
Qed.

(** The cases of [TestRecognizesData]. *)
Example RecognizesData_tests :
  let s := cbor.NewSerializer (Typed := refcbor.GoVal)
             (cbortest.stubCreater_ObjectCreater
                {| cbortest.createrObj := cbortest.anyObject VNil;
                   cbortest.createrErr := Some (errorString "test") |}) cbortest.notRegisteredTyper [] in
  map (fun d => (cbor.RecognizesData s d).1.1)
    [[]; [xd9]; [xd9; xd9]; [xd9; xd9; xf7]; [xff; xff; xff];
     [xd9; xd9; xf7; x01; x02; x03]; [xff; xff; xff; x01; x02; x03]]
  = [false; false; false; true; false; true; false].
Proof. reflexivity. Qed.

(** ** Encoding writes the tag first *)

Section encode.

Context {Typed W : Type}.
Context `{!Marshaler (gmap string Value), !Marshaler (runtime.Object Typed),
          !Writer W}.

Lemma Encoder_Encode_recorded {T} `{!Marshaler T} (r : Recorder W) (v : T) :
  exists more, calls (Encoder_Encode r v).1 = calls r ++ more.
Proof.
  unfold Encoder_Encode. destruct (Marshal v) as [b|e]; simpl.
  - unfold Write at 1, Recorder_Writer.
    destruct (Write (inner r) b) as [w [n err]]; simpl. by exists [b].
  - exists []. by rewrite app_nil_r.
Qed.

(** C4.  Whatever the writer does, the first bytes [Encode] hands to it are
    the three bytes [d9 d9 f7]; the stream of a successful [Encode] begins
    with them; and when the writer fails on the tag, [Encode] returns that
    error and nothing but the tag was ever handed to the writer. *)
Theorem Encode_tag_first (s : cbor.serializer Typed)
    (obj : runtime.Object Typed) (w : W) :
  let res := cbor.Encode s obj {| inner := w; calls := [] |} in
  (exists more, calls res.1 = cbor.selfDescribedTag :: more)
  /\ (res.2 = None ->
      exists payload, concat (calls res.1) = cbor.selfDescribedTag ++ payload)
  /\ (forall e, (Write w cbor.selfDescribedTag).2.2 = Some e ->
      res.2 = Some e /\ calls res.1 = [cbor.selfDescribedTag]).
Proof.
  intros res.
  assert (Hfirst : exists more, calls res.1 = cbor.selfDescribedTag :: more
            /\ forall e, (Write w cbor.selfDescribedTag).2.2 = Some e ->
                 res.2 = Some e /\ more = []).
  { subst res. unfold cbor.Encode.
    change (Write {| inner := w; calls := [] |} cbor.selfDescribedTag)
      with (let '(w0, r0) := Write w cbor.selfDescribedTag in
            ({| inner := w0; calls := [cbor.selfDescribedTag] |}, r0)).
    destruct (Write w cbor.selfDescribedTag) as [w1 [n [e|]]]; simpl.
    - exists []. split; [done|]. intros e' [= ->]. done.
    - set (r := {| inner := w1; calls := [cbor.selfDescribedTag] |}).
      assert (Hrec : forall T (M : Marshaler T) (v : T),
                exists more, calls (Encoder_Encode r v).1
                             = cbor.selfDescribedTag :: more).
      { intros T M v. destruct (Encoder_Encode_recorded r v) as [more Hm].
        exists more. by rewrite Hm. }
      destruct obj as [content|o].
      + destruct (Hrec _ _ content) as [more Hm]. exists more. split; [done|].
        intros e' [=].
      + destruct (Hrec _ _ (runtime.Structured o)) as [more Hm].
        exists more. split; [done|]. intros e' [=]. }
  destruct Hfirst as [more [Hcalls Herr]].
  split; [by exists more|]. split.
  - intros _. exists (concat more). by rewrite Hcalls.
  - intros e He. destruct (Herr e He) as [? ->]. by rewrite Hcalls.
Qed.

End encode.

(** [TestEncode]: a writer that fails on the tag; and scenario 1 of the
    specification, [encode(int64(10)) = d9d9f7 0a], into a buffer. *)
Lemma Encode_tag_first_witness :
  let s := cbor.newSerializer
             (cbortest.stubMetaFactory_metaFactory
                {| cbortest.stubGVK := schema.Empty; cbortest.metaErr := None |})
             (cbortest.stubCreater_ObjectCreater
                {| cbortest.createrObj := cbortest.anyObject VNil;
                   cbortest.createrErr := None |})
             cbortest.notRegisteredTyper [] in
  (cbor.Encode s (cbortest.anyObject (VInt 10)) {| Bytes := [] |}
   = ({| Bytes := hex "d9d9f70a" |}, None))
  /\ (cbor.Encode s (cbortest.anyObject (VInt 10))
        {| stub_n := 0; stub_err := Some ErrShortWrite |}).2 = Some ErrShortWrite
  /\ exists payload,
       concat (calls (cbor.Encode s (cbortest.anyObject (VInt 10))
                        {| inner := {| Bytes := [] |}; calls := [] |}).1)
       = cbor.selfDescribedTag ++ payload.
Proof.
  intros s. split; [reflexivity|]. split; [reflexivity|].
  apply (Encode_tag_first s (cbortest.anyObject (VInt 10)) {| Bytes := [] |}).
  reflexivity.
Defined.

(** ** Decoding *)

Section decode.

Import runtime cbor.

Context {Typed : Type}.
Context `{!Unmarshaler metav1.TypeMeta, !Unmarshaler (gmap string Value),
          !Unmarshaler Typed}.
Variable Diagnose : bytes -> string + error.

Implicit Types (s : serializer Typed) (data : bytes).
Implicit Types (gvk : option schema.GroupVersionKind).
Implicit Types (into : option (Object Typed)).




(** C2, as amended.  Let [into] be an unstructured object and let the
    input decode without error.  [Decode] then leaves the decoded mapping
    in [into]; the GVK it returns is the one derived from the [apiVersion]
    and [kind] entries of that mapping; if the derived Kind is empty the
    call fails with a [MissingKind] error; otherwise, if the derived
    Version is empty, it fails with a [MissingVersion] error; otherwise the
    object returned is [into] itself, holding the decoded mapping. *)
Theorem Decode_into_unstructured s data gvk content a0 content' strictErr :
  Interpret (s_metaFactory s) data = inl a0 ->
  unmarshal s data (Unstructured content)
  = (Unstructured content', (strictErr, None)) ->
  let actual := UnstructuredGroupVersionKind content' in
  exists r,
    Decode Diagnose s data gvk (Some (Unstructured content)) = Some r
    /\ into' r = Some (Unstructured content')
    /\ cbor.gvk r = Some actual
    /\ (schema.Kind actual = "" ->
        obj r = None /\ IsMissingKind (err r) = true)
    /\ (schema.Kind actual <> "" -> schema.Version actual = "" ->
        obj r = None /\ IsMissingVersion (err r) = true)
    /\ (schema.Kind actual <> "" -> schema.Version actual <> "" ->
        obj r = Some (Unstructured content') /\ err r = None).
Proof.
  intros Hi Hu actual. unfold Decode. rewrite Hi, Hu.
  fold actual. rewrite !length_zero_iff_empty.
  destruct (decide (schema.Kind actual = "")) as [Hk|Hk].
  - rewrite bool_decide_eq_true_2 by done.
    eexists. split; [reflexivity|]. simpl. repeat split; try done.
  - rewrite bool_decide_eq_false_2 by done.
    destruct (decide (schema.Version actual = "")) as [Hv|Hv].
    + rewrite bool_decide_eq_true_2 by done.
      eexists. split; [reflexivity|]. simpl. repeat split; try done.
    + rewrite bool_decide_eq_false_2 by done.
      eexists. split; [reflexivity|]. simpl. repeat split; try done.
Qed.

Lemma unmarshalInto_complete {T} `{!Unmarshaler T} s data (dst dst' : T)
    strictErr :
  unmarshalInto s data dst = (dst', (strictErr, None)) ->
  (strictErr = None \/ IsStrictDecodingError strictErr = true)
  /\ exists dm, (dm = modes.Decode \/ dm = modes.DecodeLax)
       /\ exists d0, Unmarshal dm data d0 = (dst', None).
Proof.
  unfold unmarshalInto. destruct (negb (cbor.strict (s_options s))).
  - destruct (Unmarshal modes.DecodeLax data dst) as [d lax] eqn:Hlax.
    intros [= -> <- ->]. split; [by left|].
    exists modes.DecodeLax. split; [by right|]. by exists dst.
  - destruct (Unmarshal modes.Decode data dst) as [d e] eqn:Hd.
    destruct e as [e|].
    + destruct e; try (intros [=]; fail).
      destruct (Unmarshal modes.DecodeLax data d) as [d2 lax] eqn:Hlax.
      intros [= -> <- ->]. split; [by right|].
      exists modes.DecodeLax. split; [by right|]. by exists d.
    + intros [= -> <-]. split; [by left|].
      exists modes.Decode. split; [by left|]. by exists dst.
Qed.

Lemma unmarshal_complete s data (o o' : Object Typed) strictErr :
  unmarshal s data o = (o', (strictErr, None)) ->
  (strictErr = None \/ IsStrictDecodingError strictErr = true)
  /\ props.decodedBy data o'.
Proof.
  unfold unmarshal, props.decodedBy. destruct o as [c|t].
  - destruct (unmarshalInto s data (∅ : gmap string Value)) as [c' [st e]] eqn:Hu.
    intros [= <- -> ->].
    destruct (unmarshalInto_complete _ _ _ _ _ Hu) as [Hs [dm [Hdm Hd]]].
    split; [done|]. by exists dm.
  - destruct (unmarshalInto s data t) as [t' [st e]] eqn:Hu.
    intros [= <- -> ->].
    destruct (unmarshalInto_complete _ _ _ _ _ Hu) as [Hs [dm [Hdm Hd]]].
    split; [done|]. by exists dm.
Qed.

(** A return statement, checked against the shape of the result. *)
Ltac returned :=
  eexists; split; [reflexivity|]; simpl; try done; by eexists.

(** C9, as amended.  With a typer that names at least one kind for every
    object it recognises, every call of [Decode] returns: either an object,
    which is then what an error-free pass of the decoder left in its
    destination, together with no error or with the non-fatal
    [StrictDecodingError]; or no object and an error.  (The object the
    caller passed as [into] may have been written to all the same.) *)
Theorem Decode_complete_or_error s data gvk into :
  (forall o types unv,
     into = Some o -> ObjectKinds (s_typer s) o = inl (types, unv) ->
     types <> []) ->
  exists r,
    Decode Diagnose s data gvk into = Some r
    /\ match obj r with
       | Some o =>
           (err r = None \/ IsStrictDecodingError (err r) = true)
           /\ props.decodedBy data o
       | None => is_Some (err r)
       end.
Proof.
  intros Htyper. unfold Decode.
  destruct (Interpret (s_metaFactory s) data) as [a0|e]; [|returned].
  set (actual := match gvk with Some g => gvkWithDefaults a0 g | None => a0 end).
  assert (Hrest : forall actual',
    exists r,
      (if (String.length (schema.Kind actual') =? 0)%nat then
         Some {| obj := None; cbor.gvk := Some actual';
                 err := Some (NewMissingKindErr (diagnose Diagnose data));
                 into' := into |}
       else if (String.length (schema.Version actual') =? 0)%nat then
         Some {| obj := None; cbor.gvk := Some actual';
                 err := Some (NewMissingVersionErr (diagnose Diagnose data));
                 into' := into |}
       else
         match UseOrCreateObject (s_typer s) (s_creater s) actual' into with
         | inr err0 =>
             Some {| obj := None; cbor.gvk := Some actual'; err := Some err0;
                     into' := into |}
         | inl (o, isInto) =>
             let '(o0, (strict, err0)) := unmarshal s data o in
             let into0 := if isInto then Some o0 else into in
             match err0 with
             | Some err1 =>
                 Some {| obj := None; cbor.gvk := Some actual';
                         err := Some err1; into' := into0 |}
             | None =>
                 Some {| obj := Some o0; cbor.gvk := Some actual';
                         err := strict; into' := into0 |}
             end
         end) = Some r
      /\ match obj r with
         | Some o =>
             (err r = None \/ IsStrictDecodingError (err r) = true)
             /\ props.decodedBy data o
         | None => is_Some (err r)
         end).
  { intros actual'.
    destruct (String.length (schema.Kind actual') =? 0)%nat; [returned|].
    destruct (String.length (schema.Version actual') =? 0)%nat; [returned|].
    destruct (UseOrCreateObject _ _ _ _) as [[o isInto]|e]; [|returned].
    destruct (unmarshal s data o) as [o' [strict [e|]]] eqn:Hu; [returned|].
    eexists. split; [reflexivity|]. simpl.
    by apply unmarshal_complete in Hu. }
  destruct into as [[c|t]|].
  - destruct (unmarshal s data (Unstructured c)) as [u [strict [e|]]] eqn:Hu;
      [returned|].
    apply unmarshal_complete in Hu as Hc. destruct Hc as [_ Hc].
    destruct u as [c'|t'].
    + destruct (String.length _ =? 0)%nat; [returned|].
      destruct (String.length _ =? 0)%nat; [returned|].
      eexists. split; [reflexivity|]. simpl. split; [by left|done].
    + destruct (String.length _ =? 0)%nat; [returned|].
      destruct (String.length _ =? 0)%nat; [returned|].
      eexists. split; [reflexivity|]. simpl. split; [by left|done].
  - destruct (ObjectKinds (s_typer s) (Structured t)) as [[types unv]|e] eqn:Hk;
      [|returned].
    destruct types as [|t0 ts].
    + exfalso. by eapply Htyper.
    + apply Hrest.
  - apply Hrest.
Qed.

End decode.

(** ** The cases of [TestDecode], run on the reference decoder *)

Section examples.

Import runtime cbor cbortest.


(** "into unstructured": the mapping and the GVK [{Version: v, Kind: k}]. *)
Lemma Decode_into_unstructured_witness :
  exists r,
    Decode noDiagnose (testSerializer []) ([xa2] ++ apiVersion_v ++ kind_k)
      None (Some (Unstructured ∅))
    = Some r
    /\ obj r = Some (Unstructured
                       (<["apiVersion" := VString "v"]> {["kind" := VString "k"]}))
    /\ obj r = into' r
    /\ cbor.gvk r
       = Some {| schema.Group := ""; schema.Version := "v"; schema.Kind := "k" |}
    /\ err r = None.
Proof.
  destruct (Decode_into_unstructured noDiagnose (testSerializer [])
              ([xa2] ++ apiVersion_v ++ kind_k) None ∅ schema.Empty
              (<["apiVersion" := VString "v"]> {["kind" := VString "k"]}) None)
    as [r (Hr & Hinto & Hgvk & _ & _ & Hok)].
  - reflexivity.
  - vm_compute. reflexivity.
  - exists r. destruct Hok as [Hobj Herr]; [discriminate | discriminate |].
    repeat split; try assumption. by rewrite Hobj, Hinto.
Defined.

(** The empty map [a0] decoded into an unstructured object: the derived
    Version is empty, and the error is a [MissingKind] error, not a
    [MissingVersion] error. *)
Lemma Decode_into_unstructured_kind_first :
  exists r g,
    Decode noDiagnose (testSerializer []) (hex "a0") None
      (Some (Unstructured ∅)) = Some r
    /\ cbor.gvk r = Some g
    /\ schema.Version g = ""
    /\ IsMissingVersion (err r) = false
    /\ IsMissingKind (err r) = true.
Proof. eexists. eexists. repeat split; vm_compute; reflexivity. Qed.

(** "gvk from type of into": the input [f6] decoded into an [anyObject]. *)
Lemma Decode_complete_or_error_witness :
  exists r,
    Decode noDiagnose (testSerializer []) (hex "f6") (Some schema.Empty)
      (Some (anyObject (VInt 0))) = Some r
    /\ match obj r with
       | Some o =>
           (err r = None \/ IsStrictDecodingError (err r) = true)
           /\ props.decodedBy (hex "f6") o
       | None => is_Some (err r)
       end.
Proof.
  apply (Decode_complete_or_error noDiagnose (testSerializer []) (hex "f6")
           (Some schema.Empty) (Some (anyObject (VInt 0)))).
  intros o types unv _ [= <- _]. discriminate.
Defined.

(** "into unstructured missing kind": [Decode] returns no object and a
    [MissingKind] error, and the caller's object, which was empty, now holds
    the entry that was decoded. *)
Lemma Decode_error_mutates_into :
  exists r,
    Decode noDiagnose (testSerializer []) ([xa1] ++ apiVersion_v) None
      (Some (Unstructured ∅)) = Some r
    /\ obj r = None
    /\ IsMissingKind (err r) = true
    /\ into' r = Some (Unstructured {["apiVersion" := VString "v"]})
    /\ into' r <> Some (Unstructured ∅).
Proof.
  eexists. split; [vm_compute; reflexivity|]. simpl.
  repeat split. intros [=].
Qed.

End examples.

(** ** The two decode modes *)

Section modes.

Import refcbor.

Import props.

(** Induction on data items, with the items of arrays and maps. *)
Lemma item_nested_ind (P : item -> Prop) :
  (forall n, P (Uint n)) -> (forall n, P (Nint n)) ->
  (forall b, P (ByteString b)) -> (forall b, P (TextString b)) ->
  (forall l, Forall P l -> P (Array l)) ->
  (forall l, Forall (fun kv => P kv.1 /\ P kv.2) l -> P (Map l)) ->
  (forall t i, P i -> P (Tag t i)) ->
  (forall n, P (Simple n)) -> (forall w b, P (Float w b)) ->
  forall i, P i.
Proof.
  intros HU HN HB HT HA HM HTag HS HF.
  fix IH 1. intros [n|n|b|b|l|l|t i|n|w b].
  - apply HU.
  - apply HN.
  - apply HB.
  - apply HT.
  - apply HA. revert l. fix IHl 1.
    intros [|x l]; constructor; [apply IH | apply IHl].
  - apply HM. revert l. fix IHl 1.
    intros [|[k v] l]; constructor; [split; apply IH | apply IHl].
  - apply HTag, IH.
  - apply HS.
  - apply HF.
Qed.

(** Everything but the report of unknown fields is the same in both
    modes. *)
Lemma parseItem_same levels data :
  parseItem laxOpts levels data = parseItem strictOpts levels data.
Proof. reflexivity. Qed.

Lemma decodeValue_same i : decodeValue laxOpts i = decodeValue strictOpts i.
Proof. reflexivity. Qed.

Lemma decodeFields_lax es :
  Forall (fun kv : item * item =>
            forall dst v, decodeInto strictOpts kv.2 dst = (v, None) ->
                          decodeInto laxOpts kv.2 dst = (v, None)) es ->
  forall j seen fs fs',
    decodeFields strictOpts (decodeInto strictOpts) es j seen fs = (fs', None) ->
    decodeFields laxOpts (decodeInto laxOpts) es j seen fs = (fs', None).
Proof.
  induction 1 as [|[k v] es Hv _ IH]; intros j seen fs fs'; [done|].
  simpl in Hv. cbn [decodeFields].
  change (keyString laxOpts k) with (keyString strictOpts k).
  destruct (keyString strictOpts k) as [name|e]; [|done].
  change (enforceDupMapKey laxOpts) with (enforceDupMapKey strictOpts).
  destruct (enforceDupMapKey strictOpts && bool_decide (name ∈ seen)); [done|].
  destruct (lookupField name fs) as [cur|].
  - destruct (decodeInto strictOpts v cur) as [new [e|]] eqn:Hdec; [done|].
    rewrite (Hv _ _ Hdec). apply IH.
  - change (Z.testbit (modes.ExtraReturnErrors strictOpts) 0) with true.
    done.
Qed.

Lemma decodeInto_lax i :
  forall dst v,
    decodeInto strictOpts i dst = (v, None) ->
    decodeInto laxOpts i dst = (v, None).
Proof.
  induction i as [n|n|b|b|l _|es IHes|t i IH|n|w b] using item_nested_ind;
    intros dst v.
  1-5,8-9: destruct dst; cbn [decodeInto];
    rewrite ?decodeValue_same; exact id.
  - destruct dst as [x|s|b'|z|fs]; cbn [decodeInto];
      rewrite ?decodeValue_same; try exact id.
    destruct (decodeFields strictOpts _ es 0%nat [] fs) as [fs' [e|]] eqn:Hf;
      [done|].
    intros [= <-].
    erewrite decodeFields_lax; [reflexivity| |exact Hf].
    eapply Forall_impl; [exact IHes|]. by intros kv [_ ?].
  - destruct dst; cbn [decodeInto]; rewrite ?decodeValue_same;
      try exact id; apply IH.
Qed.

(** C10.  The lax mode is the strict mode with the unknown-field report
    switched off and nothing else changed; and for every input and every
    destination, if the decode in the strict mode succeeds, the decode of
    the same input into the same destination in the lax mode succeeds too
    and leaves the same value. *)
Theorem strict_success_is_lax_success :
  (modes.unknownFieldErrors modes.Decode = true
   /\ modes.unknownFieldErrors modes.DecodeLax = false
   /\ modes.options modes.DecodeLax
      = {| modes.DupMapKey := modes.DupMapKey strictOpts;
           modes.TimeTag := modes.TimeTag strictOpts;
           modes.MaxNestedLevels := modes.MaxNestedLevels strictOpts;
           modes.MaxArrayElements := modes.MaxArrayElements strictOpts;
           modes.MaxMapPairs := modes.MaxMapPairs strictOpts;
           modes.IndefLength := modes.IndefLength strictOpts;
           modes.TagsMd := modes.TagsMd strictOpts;
           modes.IntDec := modes.IntDec strictOpts;
           modes.MapKeyByteString := modes.MapKeyByteString strictOpts;
           modes.ExtraReturnErrors := modes.ExtraDecErrorNone;
           modes.DefaultMapType := modes.DefaultMapType strictOpts;
           modes.UTF8 := modes.UTF8 strictOpts |})
  /\ (forall data (dst v : GoVal),
        Unmarshal modes.Decode data dst = (v, None) ->
        Unmarshal modes.DecodeLax data dst = (v, None))
  /\ (forall data (dst v : metav1.TypeMeta),
        Unmarshal modes.Decode data dst = (v, None) ->
        Unmarshal modes.DecodeLax data dst = (v, None))
  /\ (forall data (dst v : gmap string Value),
        Unmarshal modes.Decode data dst = (v, None) ->
        Unmarshal modes.DecodeLax data dst = (v, None)).
Proof.
  split; [repeat split; reflexivity|].
  unfold Unmarshal, Unmarshaler_GoVal, Unmarshaler_TypeMeta,
    Unmarshaler_content, unmarshalItem.
  fold strictOpts laxOpts.
  change (modes.MaxNestedLevels laxOpts) with (modes.MaxNestedLevels strictOpts).
  split; [|split]; intros data dst v; (destruct data as [|b data]; [exact id|]);
    rewrite parseItem_same;
    (destruct (parseItem strictOpts _ (b :: data)) as [[i [|b' rest]]|e];
       [|exact id|exact id]).
  - apply decodeInto_lax.
  - unfold decodeTypeMeta.
    destruct (decodeInto strictOpts i _) as [g [e|]] eqn:Hdec.
    + destruct g; intros [=].
    + by rewrite (decodeInto_lax _ _ _ Hdec).
  - unfold decodeContent. rewrite decodeValue_same. exact id.
Qed.

End modes.

(** The cases "unknown field error" and "no unknown field error in lax
    mode" of the tests of the modes: [{"a": 1}] into an empty structure;
    and an input both modes accept. *)
Lemma strict_success_is_lax_success_witness :
  Unmarshal modes.Decode (hex "a1616101") (refcbor.GStruct [])
  = (refcbor.GStruct [], Some (UnknownFieldError 0))
  /\ Unmarshal modes.DecodeLax (hex "a1616101") (refcbor.GStruct [])
     = (refcbor.GStruct [], None)
  /\ Unmarshal modes.DecodeLax (hex "a1616101")
       (refcbor.GStruct [("a", refcbor.GInt64 0)])
     = (refcbor.GStruct [("a", refcbor.GInt64 1)], None).
Proof.
  split; [reflexivity|]. split; [reflexivity|].
  apply (proj1 (proj2 strict_success_is_lax_success)). reflexivity.
Defined.

(** ** The round trips of the polymorphic schema values *)

Section unions.

Import apiextensions roundtrip.

Variable JSONSchemaProps : Type.
Variable zeroProps : JSONSchemaProps.

Context `{!JSONMarshal (option JSONSchemaProps), !JSONUnmarshal JSONSchemaProps,
          !JSONMarshal (list string), !JSONUnmarshal (list string),
          !JSONMarshal (list JSONSchemaProps),
          !JSONUnmarshal (list JSONSchemaProps),
          !JSONMarshal Value, !JSONUnmarshal Value}.
Context `{!CBORMarshal (option JSONSchemaProps), !CBORUnmarshal JSONSchemaProps,
          !CBORMarshal bool, !CBORUnmarshal bool,
          !CBORMarshal (list string), !CBORUnmarshal (list string),
          !CBORMarshal (list JSONSchemaProps),
          !CBORUnmarshal (list JSONSchemaProps),
          !CBORMarshal Value, !CBORUnmarshal Value}.










End unions.

Section union_examples.

Import apiextensions roundtrip samplecodec.






End union_examples.

Section nan.

Import codec.

(** The rows of floating-point numbers of that serializer's TestEncode,
    given by their bits: each is written at the smallest width that
    preserves it. *)
Example encode_float_tests :
  Forall (fun row : Z * string => encode handle (VFloat row.1) = hex row.2)
    [(0x0000000000000000, "f90000");
     (0x8000000000000000, "f98000");
     (0x3ff0000000000000, "f93c00");
     (0x3ff199999999999a, "fb3ff199999999999a");
     (0x3ff8000000000000, "f93e00");
     (0x40effc0000000000, "f97bff");
     (0x40f86a0000000000, "fa47c35000");
     (0x47efffffe0000000, "fa7f7fffff");
     (0x7e37e43c8800759c, "fb7e37e43c8800759c");
     (0x3e70000000000000, "f90001");
     (0x3f10000000000000, "f90400");
     (0xc010000000000000, "f9c400");
     (0xc010666666666666, "fbc010666666666666");
     (0x7ff0000000000000, "f97c00");
     (0x7ff8000000000001, "fb7ff8000000000001");
     (0x7ff8000000000000, "fb7ff8000000000000");
     (0xfff0000000000000, "f9fc00")]%string.
Proof. repeat constructor. Qed.


(** The encode mode of the specification writes every NaN as f97e00. *)
Lemma encodeFloat_canonical_NaN bits :
  refcbor.isNaN64 bits = true ->
  refcbor.encodeValue refcbor.Encode (VFloat bits) = hex "f97e00".
Proof.
  intros H. cbn. unfold refcbor.encodeFloat. cbn. rewrite H. reflexivity.
Qed.

End nan.

Section interpret.

Import runtime cbor refcbor props.









(** [Interpret] over any decoder: it fails, with the error of the decoder
    wrapped, when the lax decoding into an empty [TypeMeta] fails, and
    otherwise returns the GVK of the decoded [apiVersion] and [kind]. *)
Lemma Interpret_unmarshal `{!Unmarshaler metav1.TypeMeta} (data : bytes) :
  match Unmarshal modes.DecodeLax data
          {| metav1.Kind := ""; metav1.APIVersion := "" |} with
  | (_, Some e) => Interpret defaultMetaFactory data = inr (interpretError e)
  | (tm, None) =>
      Interpret defaultMetaFactory data
      = inl (schema.FromAPIVersionAndKind (metav1.APIVersion tm) (metav1.Kind tm))
  end.
Proof.
  cbn [Interpret defaultMetaFactory].
  by destruct (Unmarshal _ _ _) as [tm [e|]].
Qed.


End interpret.

Section interpret_examples.

Import runtime cbor refcbor props.


(** No input is an error, as in TestMetaFactoryInterpret; so are an
    array, a map followed by another byte, and a [kind] that is a number.
    An entry that is neither [apiVersion] nor [kind] changes nothing. *)
Example Interpret_tests :
  let mf := defaultMetaFactory (Unmarshaler0 := Unmarshaler_TypeMeta) in
  Interpret mf [] = inr (interpretError EOF)
  /\ Interpret mf [x80]
     = inr (interpretError
              (UnmarshalTypeError "cbor: cannot unmarshal into Go value"))
  /\ Interpret mf [xa0; x00] = inr (interpretError ExtraneousDataError)
  /\ Interpret mf ([xa1; x64] ++ of_string "kind" ++ [x01])
     = inr (interpretError
              (UnmarshalTypeError "cbor: cannot unmarshal into Go value"))
  /\ Interpret mf ([xa3; x6a] ++ of_string "apiVersion" ++ [x63]
                   ++ of_string "a/b" ++ [x61] ++ of_string "z" ++ [x01; x64]
                   ++ of_string "kind" ++ [x61] ++ of_string "c")
     = inl {| schema.Group := "a"; schema.Version := "b"; schema.Kind := "c" |}.
Proof.
  intros mf.
  split; [|split; [|split; [|split]]]; vm_compute; reflexivity.
Qed.

End interpret_examples.

(** ** The skimmer of status lines *)

Section skimmer.

Import responsewriter skimming.

Context {C : Type} `{!Writer C}.
Variable Atoi : string -> Z * option error.

Lemma IndexByte_notin b c : c ∉ b -> IndexByte b c = -1.
Proof.
  induction b as [|x b IH]; [done|]. intros [Hx Hb]%not_elem_of_cons.
  cbn [IndexByte]. rewrite bool_decide_eq_false_2 by done.
  by rewrite IH.
Qed.

Lemma IndexByte_first a b c :
  c ∉ a -> IndexByte (a ++ c :: b) c = Z.of_nat (length a).
Proof.
  induction a as [|x a IH]; cbn [IndexByte app length].
  - intros _. by rewrite bool_decide_eq_true_2.
  - intros [Hx Ha]%not_elem_of_cons.
    rewrite bool_decide_eq_false_2 by done. rewrite IH by done.
    destruct (Z.ltb_spec (Z.of_nat (length a)) 0); lia.
Qed.

(** A list holds [c], and then has a first occurrence of it, or does not. *)
Lemma first_occurrence (b : bytes) (c : byte) :
  (c ∉ b) \/ exists a b', b = a ++ c :: b' /\ (c ∉ a).
Proof.
  induction b as [|x b IH]; [left; apply not_elem_of_nil|].
  destruct (decide (c = x)) as [->|Hx].
  - right. exists [], b. split; [done|apply not_elem_of_nil].
  - destruct IH as [Hc|(a & b' & -> & Hc)].
    + left. by apply not_elem_of_cons.
    + right. exists (x :: a), b'. split; [done|]. by apply not_elem_of_cons.
Qed.

Lemma sliceTo_take p n :
  0 <= n <= Z.of_nat (length p) -> sliceTo p n = Some (take (Z.to_nat n) p).
Proof.
  intros Hn. unfold sliceTo.
  destruct (Z.leb_spec 0 n); [|lia].
  destruct (Z.leb_spec n (Z.of_nat (length p))); [done|lia].
Qed.

(** A call with a decided status hands the bytes to the connection and
    leaves the rest as it is. *)
Lemma Skimmer_Write_decided (rs : Skimmer C) p :
  status rs <> 0 ->
  Skimmer_Write Atoi rs p
  = Some ({| Conn := (Write (Conn rs) p).1; limit := limit rs;
             buffer := buffer rs; status := status rs |},
          (Write (Conn rs) p).2).
Proof.
  intros Hs. unfold Skimmer_Write.
  destruct (Write (Conn rs) p) as [c [cn cerr]]. cbn [status fst snd].
  destruct (Z.eqb_spec (status rs) 0); done.
Qed.

Lemma Cut_notin (s : bytes) (c : byte) : c ∉ s -> Cut s c = (s, [], false).
Proof.
  induction s as [|x s IH]; [done|]. intros [Hx Hs]%not_elem_of_cons.
  cbn [Cut]. rewrite bool_decide_eq_false_2 by done. by rewrite IH.
Qed.

Lemma Cut_first (a b : bytes) (c : byte) :
  c ∉ a -> Cut (a ++ c :: b) c = (a, b, true).
Proof.
  induction a as [|x a IH]; cbn [Cut app].
  - intros _. by rewrite bool_decide_eq_true_2.
  - intros [Hx Ha]%not_elem_of_cons.
    rewrite bool_decide_eq_false_2 by done. by rewrite IH.
Qed.

(** A call with an undecided status: the connection is handed the bytes,
    and the buffer and the status are those of [skim]. *)
Lemma Skimmer_Write_undecided (rs : Skimmer C) p :
  status rs = 0 ->
  0 <= (Write (Conn rs) p).2.1 <= Z.of_nat (length p) ->
  bufferLen rs <= limit rs ->
  exists rs',
    Skimmer_Write Atoi rs p = Some (rs', (Write (Conn rs) p).2)
    /\ Conn rs' = (Write (Conn rs) p).1 /\ limit rs' = limit rs
    /\ skimmed rs' = skim Atoi (limit rs) (buffer rs) (examined rs p).
Proof.
  intros Hs Hcn Hlen. unfold Skimmer_Write, examined, skimmed, skim.
  destruct (Write (Conn rs) p) as [c [cn cerr]]. cbn [fst snd] in *.
  cbn [status limit buffer]. rewrite Hs. cbn [Z.eqb negb].
  rewrite sliceTo_take by done. cbn [mbind option_bind].
  set (p1 := take (Z.to_nat cn) p).
  unfold bufferLen in *. cbn [buffer] in *.
  set (room := limit rs - Z.of_nat (length (buffer rs))).
  assert (Hp2 : (if limit rs <? Z.of_nat (length (buffer rs)) + Z.of_nat (length p1)
                 then sliceTo p1 room else Some p1)
                = Some (take (Z.to_nat room) p1)).
  { destruct (Z.ltb_spec (limit rs)
                (Z.of_nat (length (buffer rs)) + Z.of_nat (length p1))).
    - apply sliceTo_take. lia.
    - rewrite take_ge; [done|]. lia. }
  rewrite Hp2. cbn [mbind option_bind].
  set (e := take (Z.to_nat room) p1).
  destruct (first_occurrence e x0a) as [Hnl|(a & b & He & Hnl)].
  - rewrite IndexByte_notin, Cut_notin by done. cbn [Z.ltb Z.compare].
    unfold bufferWrite, setStatus; cbn [Conn limit buffer status].
    destruct (Z.leb_spec (limit rs) (Z.of_nat (length (buffer rs ++ e))));
      eexists; (split; [reflexivity|]); done.
  - rewrite He, IndexByte_first, Cut_first by done.
    destruct (Z.ltb_spec (Z.of_nat (length a)) 0); [lia|].
    rewrite sliceTo_take by (rewrite length_app; cbn [length]; lia).
    cbn [mbind option_bind]. rewrite Nat2Z.id, take_app_length.
    exists {| Conn := c; limit := limit rs; buffer := buffer rs ++ a;
              status := lineStatus Atoi (buffer rs ++ a) |}.
    cbn [Conn limit buffer status]. split; [|done].
    unfold bufferWrite, setStatus, lineStatus; cbn [Conn limit buffer status].
    destruct (Cut (trimCR (buffer rs ++ a)) x20) as [[before st] ok].
    destruct ok; cbn [negb]; [|done].
    destruct (Cut (TrimLeft st x20) x20) as [[code after] found].
    destruct (negb (Z.of_nat (length code) =? 3)); [done|].
    destruct (Atoi (to_string code)) as [n err].
    by destruct (bool_decide (is_Some err) || (n <? 0)).
Qed.

(** [skim] keeps the buffer within the limit, and below it while the
    status is undecided. *)
Lemma skim_good (lim : Z) (buf e : bytes) :
  Z.of_nat (length buf) + Z.of_nat (length e) <= lim ->
  let st := skim Atoi lim buf e in
  Z.of_nat (length st.1) <= lim
  /\ (st.2 = 0 -> Z.of_nat (length st.1) < lim).
Proof.
  intros Hlen. unfold skim.
  destruct (first_occurrence e x0a) as [Hnl|(a & b & -> & Hnl)].
  - rewrite Cut_notin by done. cbn [fst snd].
    rewrite length_app.
    destruct (Z.leb_spec lim (Z.of_nat (length buf + length e))); lia.
  - rewrite Cut_first by done. cbn [fst snd].
    rewrite !length_app in *. cbn [length] in *. lia.
Qed.

Lemma examined_length (rs : Skimmer C) p :
  bufferLen rs <= limit rs ->
  bufferLen rs + Z.of_nat (length (examined rs p)) <= limit rs.
Proof. unfold examined. rewrite length_take. lia. Qed.

(** One call: it returns what the connection returned, and keeps the
    skimmer good. *)
Lemma Skimmer_Write_step (rs : Skimmer C) p :
  0 <= (Write (Conn rs) p).2.1 <= Z.of_nat (length p) ->
  good rs ->
  exists rs',
    Skimmer_Write Atoi rs p = Some (rs', (Write (Conn rs) p).2)
    /\ Conn rs' = (Write (Conn rs) p).1 /\ limit rs' = limit rs
    /\ good rs'
    /\ skimmed rs'
       = if status rs =? 0
         then skim Atoi (limit rs) (buffer rs) (examined rs p)
         else skimmed rs.
Proof.
  intros Hcn [Hlen Hlt].
  destruct (Z.eqb_spec (status rs) 0) as [Hs|Hs].
  - destruct (Skimmer_Write_undecided rs p Hs Hcn Hlen)
      as (rs' & HW & Hc & Hl & Hsk).
    exists rs'. repeat (split; [done|]). split; [|done].
    pose proof (skim_good (limit rs) (buffer rs) (examined rs p)
                  (examined_length rs p Hlen)) as Hg.
    cbv zeta in Hg. rewrite <- Hsk in Hg. unfold good, bufferLen.
    by rewrite Hl.
  - rewrite Skimmer_Write_decided by done. eexists. split; [reflexivity|].
    by repeat split.
Qed.

(** X1. The skimmer is transparent.  Over any run of calls on a connection
    that keeps the contract of [io.Writer], every call returns what the
    connection returned for the same bytes, the connection ends as if it
    had been written to directly, and the buffer never grows beyond the
    limit. *)
Theorem Skimmer_Writes_transparent (rs : Skimmer C) (ps : list bytes) :
  obeysWriter C -> good rs ->
  exists rs',
    Writes Atoi rs ps = Some (rs', (connWrites (Conn rs) ps).2)
    /\ Conn rs' = (connWrites (Conn rs) ps).1
    /\ limit rs' = limit rs
    /\ bufferLen rs' <= limit rs.
Proof.
  intros Hconn. revert rs.
  induction ps as [|p ps IH]; intros rs Hgood.
  - exists rs. repeat split; try done. apply Hgood.
  - destruct (Skimmer_Write_step rs p (Hconn _ _) Hgood)
      as (rs1 & HW & Hc & Hl & Hg & _).
    destruct (IH rs1 Hg) as (rs2 & HWs & Hc2 & Hl2 & Hb).
    exists rs2. cbn [Writes connWrites]. rewrite HW. cbn [mbind option_bind].
    rewrite HWs. cbn [mbind option_bind]. rewrite Hc in *.
    destruct (Write (Conn rs) p) as [c r]. cbn [fst snd] in *.
    destruct (connWrites c ps) as [c' rr]. cbn [fst snd] in *.
    repeat split; try done; congruence.
Qed.

(** A run of calls on a skimmer whose status is decided: every call
    takes the first branch of [Write]. *)
Lemma Writes_decided (rs : Skimmer C) (ps : list bytes) :
  status rs <> 0 ->
  exists rs' rr,
    Writes Atoi rs ps = Some (rs', rr)
    /\ buffer rs' = buffer rs /\ status rs' = status rs.
Proof.
  revert rs. induction ps as [|p ps IH]; intros rs Hs.
  - by exists rs, [].
  - cbn [Writes]. rewrite Skimmer_Write_decided by done.
    cbn [mbind option_bind].
    set (rs1 := {| Conn := (Write (Conn rs) p).1; limit := limit rs;
                   buffer := buffer rs; status := status rs |}).
    destruct (IH rs1 Hs) as (rs' & rr & -> & Hb & Hst).
    cbn [mbind option_bind]. by do 2 eexists.
Qed.

(** X2. A decided status is final.  Once the status is not 0, no run of
    calls changes the status, the buffer or the answer of [Status],
    whatever the connection does. *)
Theorem Skimmer_status_final (rs : Skimmer C) (ps : list bytes) :
  status rs <> 0 ->
  exists rs' rr,
    Writes Atoi rs ps = Some (rs', rr)
    /\ skimmed rs' = skimmed rs
    /\ Skimmer_Status rs' = Skimmer_Status rs.
Proof.
  intros Hs. destruct (Writes_decided rs ps Hs) as (rs' & rr & HW & Hb & Hst).
  exists rs', rr. split; [done|]. unfold skimmed, Skimmer_Status.
  rewrite Hb, Hst. done.
Qed.

(** [skim] over two pieces of the examined bytes: a line feed in the
    first piece settles the result; without one, the first piece goes to
    the buffer and the second piece is skimmed. *)
Lemma skim_app_found (lim : Z) (buf e1 e2 : bytes) :
  x0a ∈ e1 -> skim Atoi lim buf (e1 ++ e2) = skim Atoi lim buf e1.
Proof.
  intros Hin. destruct (first_occurrence e1 x0a) as [?|(a & b & -> & Hnl)];
    [done|].
  unfold skim. rewrite <- app_assoc. cbn [app].
  by rewrite !Cut_first.
Qed.

Lemma skim_app_notin (lim : Z) (buf e1 e2 : bytes) :
  x0a ∉ e1 -> skim Atoi lim buf (e1 ++ e2) = skim Atoi lim (buf ++ e1) e2.
Proof.
  intros Hnl1. unfold skim.
  destruct (first_occurrence e2 x0a) as [Hnl|(a & b & -> & Hnl)].
  - rewrite (Cut_notin e2), (Cut_notin (e1 ++ e2)); try done.
    + by rewrite app_assoc.
    + rewrite not_elem_of_app. done.
  - rewrite Cut_first by done. rewrite app_assoc.
    rewrite Cut_first by (rewrite not_elem_of_app; done).
    by rewrite app_assoc.
Qed.

Lemma takesAll_obeys : takesAll C -> obeysWriter C.
Proof. intros H c p. rewrite H. lia. Qed.

Lemma examined_takesAll (rs : Skimmer C) p :
  takesAll C ->
  examined rs p = take (Z.to_nat (limit rs - bufferLen rs)) p.
Proof.
  intros H. unfold examined. rewrite H, Nat2Z.id. by rewrite firstn_all.
Qed.

(** A run of calls against one call with all the bytes, on a connection
    that takes every byte. *)
Lemma Writes_skimmed_concat (rs : Skimmer C) (ps : list bytes) rs1 r1 :
  takesAll C -> good rs ->
  Skimmer_Write Atoi rs (concat ps) = Some (rs1, r1) ->
  (status rs1 = 0 -> x0a ∉ concat ps) ->
  exists rs2 r2,
    Writes Atoi rs ps = Some (rs2, r2) /\ skimmed rs2 = skimmed rs1.
Proof.
  intros Hall. pose proof (takesAll_obeys Hall) as Hobeys.
  revert rs rs1 r1.
  induction ps as [|p ps IH]; intros rs rs1 r1 Hgood HW H0.
  - exists rs, []. split; [done|].
    destruct (Skimmer_Write_step rs [] (Hobeys _ _) Hgood)
      as (rs' & HW' & _ & _ & _ & Hsk).
    cbn [concat] in HW. rewrite HW in HW'. injection HW' as <- _.
    rewrite Hsk. destruct (Z.eqb_spec (status rs) 0) as [Hs|Hs]; [|done].
    rewrite examined_takesAll, take_nil by done. unfold skim. cbn [Cut].
    rewrite app_nil_r. destruct Hgood as [_ Hlt]. specialize (Hlt Hs).
    unfold bufferLen in Hlt.
    destruct (Z.leb_spec (limit rs) (Z.of_nat (length (buffer rs))));
      [lia|]. unfold skimmed. by rewrite Hs.
  - cbn [concat] in *. set (q := concat ps) in *.
    destruct (Z.eqb_spec (status rs) 0) as [Hs|Hs].
    2:{ destruct (Writes_decided rs (p :: ps) Hs) as (rs2 & r2 & HWs & Hb & Hst).
        assert (Hsk : skimmed rs2 = skimmed rs) by (unfold skimmed; congruence).
        exists rs2, r2. split; [done|]. rewrite Hsk.
        rewrite Skimmer_Write_decided in HW by done. by injection HW as <- _. }
    destruct (Skimmer_Write_step rs (p ++ q) (Hobeys _ _) Hgood)
      as (rs1' & HW1 & _ & _ & _ & Hsk1).
    rewrite HW in HW1. injection HW1 as <- _.
    destruct (Skimmer_Write_step rs p (Hobeys _ _) Hgood)
      as (rsa & HWa & Hca & Hla & Hga & Hska).
    rewrite Hs in Hsk1, Hska. cbn [Z.eqb] in Hsk1, Hska.
    rewrite examined_takesAll in Hsk1, Hska by done.
    set (room := Z.to_nat (limit rs - bufferLen rs)) in *.
    rewrite take_app in Hsk1.
    cbn [Writes]. rewrite HWa. cbn [mbind option_bind].
    (* the first chunk decides, or fills the buffer *)
    assert (Hsame : skimmed rs1 = skimmed rsa -> status rsa <> 0 ->
              exists rs2 r2,
                ('(rs0, rs_) ← Writes Atoi rsa ps; Some (rs0, (Write (Conn rs) p).2 :: rs_))
                = Some (rs2, r2) /\ skimmed rs2 = skimmed rs1).
    { intros Heq Hsa.
      destruct (Writes_decided rsa ps Hsa) as (rs2 & r2 & -> & Hb & Hst).
      assert (Hsk : skimmed rs2 = skimmed rsa) by (unfold skimmed; congruence).
      cbn [mbind option_bind]. do 2 eexists. split; [reflexivity|]. congruence. }
    destruct (decide (x0a ∈ take room p)) as [Hin|Hnl].
    { rewrite skim_app_found in Hsk1 by done. apply Hsame; [congruence|].
      intros Hsa. assert (Hs1 : status rs1 = 0).
      { change (status rs1) with (skimmed rs1).2. rewrite Hsk1, <- Hska. done. }
      apply (H0 Hs1). apply elem_of_app. left.
      by apply (subseteq_take room p). }
    destruct (decide (room <= length p)%nat) as [Hfull|Hfits].
    { replace (room - length p)%nat with 0%nat in Hsk1 by lia.
      rewrite take_0, app_nil_r in Hsk1. apply Hsame; [congruence|].
      change (status rsa) with (skimmed rsa).2. rewrite Hska. unfold skim.
      rewrite Cut_notin by done. cbn [snd].
      rewrite length_app, length_take.
      destruct Hgood as [Hlen _]. unfold bufferLen in *.
      destruct (Z.leb_spec (limit rs)
                  (Z.of_nat (length (buffer rs) + (room `min` length p)%nat)));
        [done|lia]. }
    (* the first chunk fits and holds no line feed *)
    rewrite take_ge in Hsk1, Hska, Hnl by lia.
    rewrite skim_app_notin in Hsk1 by done.
    assert (Hbuf : buffer rsa = buffer rs ++ p /\ status rsa = 0).
    { change (buffer rsa) with (skimmed rsa).1.
      change (status rsa) with (skimmed rsa).2. rewrite Hska. unfold skim.
      rewrite Cut_notin by done. cbn [fst snd]. split; [done|].
      rewrite length_app. destruct Hgood as [Hlen _]. unfold bufferLen in *.
      destruct (Z.leb_spec (limit rs)
                  (Z.of_nat (length (buffer rs) + length p))); [lia|done]. }
    destruct Hbuf as [Hbuf Hsa].
    destruct (Skimmer_Write_step rsa q (Hobeys _ _) Hga)
      as (rsb & HWb & _ & _ & _ & Hskb).
    rewrite Hsa in Hskb. cbn [Z.eqb] in Hskb.
    rewrite examined_takesAll in Hskb by done.
    assert (Heq : skimmed rsb = skimmed rs1).
    { rewrite Hskb, Hsk1, Hla, Hbuf. f_equal. f_equal.
      unfold room, bufferLen. rewrite Hbuf, length_app. lia. }
    destruct (IH rsa rsb _ Hga HWb) as (rs2 & r2 & -> & Hsk2).
    { intros Hsb. assert (Hs1 : status rs1 = 0).
      { change (status rs1) with (skimmed rs1).2. rewrite <- Heq. done. }
      specialize (H0 Hs1). rewrite not_elem_of_app in H0. apply H0. }
    cbn [mbind option_bind]. do 2 eexists. split; [reflexivity|]. congruence.
Qed.

(** X3. The chunks do not matter.  On a connection that takes every byte,
    two runs of calls that write the same bytes, cut differently, leave
    the same buffer and the same status, those that one call with all the
    bytes leaves, unless the first line reads as the status 0 (which the
    skimmer takes for an undecided status). *)
Theorem Skimmer_Writes_concat (rs : Skimmer C) (ps ps' : list bytes) rs1 r1 :
  takesAll C -> good rs ->
  concat ps' = concat ps ->
  Skimmer_Write Atoi rs (concat ps) = Some (rs1, r1) ->
  (status rs1 = 0 -> x0a ∉ concat ps) ->
  exists rs2 r2 rs2' r2',
    Writes Atoi rs ps = Some (rs2, r2)
    /\ Writes Atoi rs ps' = Some (rs2', r2')
    /\ skimmed rs2 = skimmed rs1
    /\ skimmed rs2' = skimmed rs1.
Proof.
  intros Hall Hgood Hcut HW H0.
  destruct (Writes_skimmed_concat rs ps rs1 r1 Hall Hgood HW H0)
    as (rs2 & r2 & HW2 & Hsk2).
  rewrite <- Hcut in HW, H0.
  destruct (Writes_skimmed_concat rs ps' rs1 r1 Hall Hgood HW H0)
    as (rs2' & r2' & HW2' & Hsk2').
  by exists rs2, r2, rs2', r2'.
Qed.

Lemma trimCR_CR (l : bytes) : trimCR (l ++ [x0d]) = l.
Proof.
  unfold trimCR. rewrite last_snoc, bool_decide_eq_true_2 by done.
  apply removelast_last.
Qed.

Lemma trimCR_other (l : bytes) : last l <> Some x0d -> trimCR l = l.
Proof.
  unfold trimCR. destruct (last l) as [c|]; [|done]. intros Hc.
  rewrite bool_decide_eq_false_2; [done|]. congruence.
Qed.

Lemma TrimLeft_repeat (c x : byte) (k : nat) (s : bytes) :
  x <> c -> TrimLeft (repeat c k ++ x :: s) c = x :: s.
Proof.
  intros Hx. induction k as [|k IH]; cbn [repeat app TrimLeft].
  - by rewrite bool_decide_eq_false_2.
  - by rewrite bool_decide_eq_true_2.
Qed.

Lemma last_app_notin (c : byte) (l k : bytes) :
  k <> [] -> c ∉ k -> last (l ++ k) <> Some c.
Proof.
  intros Hk Hc. destruct (exists_last Hk) as (k' & x & ->).
  rewrite app_assoc, last_snoc. intros [= ->]. apply Hc.
  apply elem_of_app. right. apply list_elem_of_here.
Qed.

(** The status that a status line stands for. *)
Lemma lineStatus_statusLine proto spaces code reason
    (withReason withCR : bool) n :
  x20 ∉ proto ->
  length code = 3%nat -> x20 ∉ code -> x0d ∉ code -> x0d ∉ reason ->
  Atoi (to_string code) = (n, None) -> 0 <= n ->
  lineStatus Atoi
    (proto ++ [x20] ++ repeat x20 spaces ++ code
     ++ (if withReason then x20 :: reason else [])
     ++ (if withCR then [x0d] else []))
  = n.
Proof.
  intros Hproto Hlen Hsp Hcr Hcrr HAtoi Hn.
  set (rp := if withReason then x20 :: reason else []).
  set (line := proto ++ [x20] ++ repeat x20 spaces ++ code ++ rp).
  assert (Hline : trimCR (proto ++ [x20] ++ repeat x20 spaces ++ code ++ rp
                          ++ (if withCR then [x0d] else [])) = line).
  { assert (Hlast : last line <> Some x0d).
    { unfold line. rewrite !app_assoc, <- (app_assoc _ code rp).
      apply last_app_notin.
      - destruct code; [done|]. done.
      - rewrite not_elem_of_app. split; [done|]. unfold rp.
        destruct withReason; [|apply not_elem_of_nil].
        apply not_elem_of_cons. done. }
    destruct withCR.
    - replace (proto ++ [x20] ++ repeat x20 spaces ++ code ++ rp ++ [x0d])
        with (line ++ [x0d]) by (unfold line; by rewrite <- !app_assoc).
      apply trimCR_CR.
    - rewrite app_nil_r. by apply trimCR_other. }
  unfold lineStatus. rewrite Hline. unfold line. cbn [app].
  rewrite Cut_first by done. cbn [negb].
  destruct code as [|c1 code']; [done|].
  apply not_elem_of_cons in Hsp as [Hc1 Hsp']. cbn [app].
  rewrite TrimLeft_repeat by done.
  assert (HCut : exists after found,
            Cut (c1 :: code' ++ rp) x20 = (c1 :: code', after, found)).
  { change (c1 :: code' ++ rp) with ((c1 :: code') ++ rp). unfold rp.
    destruct withReason.
    - do 2 eexists. apply Cut_first. by apply not_elem_of_cons.
    - rewrite app_nil_r. do 2 eexists. apply Cut_notin.
      by apply not_elem_of_cons. }
  destruct HCut as (after & found & ->).
  rewrite Hlen. cbn [Z.of_nat Z.eqb Pos.of_succ_nat Pos.succ Pos.eqb negb].
  rewrite HAtoi. rewrite bool_decide_eq_false_2 by (by intros [? ?]).
  destruct (Z.ltb_spec n 0); [lia|done].
Qed.

(** X4. The status line is read, however it is cut into chunks.  On a
    connection that takes every byte, if the bytes written to a new
    skimmer begin with a status line of at most 64 bytes whose code is
    three bytes that [Atoi] reads as a positive number, [Status] reports
    that number. *)
Theorem Skimmer_reads_status_line (c : C) (ps : list bytes)
    proto spaces code reason withReason withCR rest n :
  takesAll C ->
  concat ps = statusLine proto spaces code reason withReason withCR ++ rest ->
  x20 ∉ proto -> x0a ∉ proto ->
  length code = 3%nat -> x20 ∉ code -> x0a ∉ code -> x0d ∉ code ->
  x0a ∉ reason -> x0d ∉ reason ->
  Z.of_nat (length (statusLine proto spaces code reason withReason withCR))
  <= 64 ->
  Atoi (to_string code) = (n, None) -> 0 < n ->
  exists rs' rr,
    Writes Atoi (Skim c) ps = Some (rs', rr)
    /\ Skimmer_Status rs' = (n, true).
Proof.
  intros Hall Hps Hp20 Hp0a Hlen Hc20 Hc0a Hc0d Hr0a Hr0d Hfit HAtoi Hn.
  assert (Hgood : good (Skim c)) by (unfold good, bufferLen; cbn; lia).
  destruct (Skimmer_Write_step (Skim c) (concat ps)
              (takesAll_obeys Hall _ _) Hgood)
    as (rs1 & HW & _ & _ & _ & Hsk).
  cbn [status Skim Z.eqb] in Hsk.
  rewrite examined_takesAll in Hsk by done.
  unfold bufferLen in Hsk. cbn [limit buffer Skim length] in Hsk.
  set (line := proto ++ [x20] ++ repeat x20 spaces ++ code
               ++ (if withReason then x20 :: reason else [])
               ++ (if withCR then [x0d] else [])).
  assert (Hsl : statusLine proto spaces code reason withReason withCR
                = line ++ [x0a]).
  { unfold statusLine, line. rewrite <- !app_assoc. by destruct withCR. }
  assert (Hnl : x0a ∉ line).
  { unfold line. rewrite !not_elem_of_app. repeat split; try done.
    - apply not_elem_of_cons. split; [done|apply not_elem_of_nil].
    - intros [=]%list_elem_of_In%repeat_spec.
    - destruct withReason; [|apply not_elem_of_nil].
      by apply not_elem_of_cons.
    - destruct withCR; [|apply not_elem_of_nil].
      apply not_elem_of_cons. split; [done|apply not_elem_of_nil]. }
  assert (Hstatus : status rs1 = n).
  { change (status rs1) with (skimmed rs1).2. rewrite Hsk, Hps, Hsl.
    rewrite take_app, take_ge by (rewrite Hsl in Hfit; lia).
    rewrite <- app_assoc. cbn [app]. unfold skim.
    rewrite Cut_first by done. cbn [snd app].
    apply lineStatus_statusLine; try done. lia. }
  destruct (Writes_skimmed_concat (Skim c) ps rs1 _ Hall Hgood HW)
    as (rs2 & r2 & HWs & Hsk2); [lia|].
  exists rs2, r2. split; [done|]. unfold Skimmer_Status.
  replace (status rs2) with n.
  - destruct (Z.ltb_spec n 0); [lia|done].
  - change (status rs2) with (skimmed rs2).2. by rewrite Hsk2.
Qed.

(** X5. The skimmer gives up.  On a connection that takes every byte, once
    64 bytes have been written to a new skimmer without a line feed among
    them, [Status] reports no status, and the buffer holds those 64
    bytes. *)
Theorem Skimmer_gives_up (c : C) (ps : list bytes) :
  takesAll C ->
  (64 <= length (concat ps))%nat ->
  x0a ∉ take 64 (concat ps) ->
  exists rs' rr,
    Writes Atoi (Skim c) ps = Some (rs', rr)
    /\ Skimmer_Status rs' = (0, false)
    /\ buffer rs' = take 64 (concat ps).
Proof.
  intros Hall Hlen Hnl.
  assert (Hgood : good (Skim c)) by (unfold good, bufferLen; cbn; lia).
  destruct (Skimmer_Write_step (Skim c) (concat ps)
              (takesAll_obeys Hall _ _) Hgood)
    as (rs1 & HW & _ & _ & _ & Hsk).
  cbn [status Skim Z.eqb] in Hsk.
  rewrite examined_takesAll in Hsk by done.
  unfold bufferLen in Hsk. cbn [limit buffer Skim length] in Hsk.
  change (Z.to_nat (64 - Z.of_nat 0)) with 64%nat in Hsk.
  unfold skim in Hsk. rewrite Cut_notin in Hsk by done. cbn [app] in Hsk.
  rewrite length_take, Nat.min_l in Hsk by done. cbn [Z.leb Z.of_nat] in Hsk.
  change (64 <=? Z.of_nat 64) with true in Hsk. cbn iota in Hsk.
  destruct (Writes_skimmed_concat (Skim c) ps rs1 _ Hall Hgood HW)
    as (rs2 & r2 & HWs & Hsk2).
  { change (status rs1) with (skimmed rs1).2. rewrite Hsk. done. }
  exists rs2, r2. split; [done|]. rewrite Hsk in Hsk2.
  injection Hsk2 as Hb Hs. unfold Skimmer_Status. by rewrite Hs, Hb.
Qed.

Lemma skim_decidedByLine (lim : Z) (buf e : bytes) :
  let st := skim Atoi lim buf e in
  st.2 = 0 \/ st.2 = -1 \/ st.2 = lineStatus Atoi st.1.
Proof.
  unfold skim. destruct (Cut e x0a) as [[line after] found].
  destruct found; cbn [fst snd]; [by right; right|].
  destruct (_ <=? _); [by right; left|by left].
Qed.

Lemma Writes_decidedByLine (rs : Skimmer C) (ps : list bytes) rs' rr :
  obeysWriter C -> good rs -> decidedByLine Atoi rs ->
  Writes Atoi rs ps = Some (rs', rr) -> decidedByLine Atoi rs'.
Proof.
  intros Hconn. revert rs rr.
  induction ps as [|p ps IH]; intros rs rr Hgood Hdec HW.
  - by injection HW as <- _.
  - cbn [Writes] in HW.
    destruct (Skimmer_Write_step rs p (Hconn _ _) Hgood)
      as (rs1 & HW1 & _ & _ & Hg1 & Hsk).
    rewrite HW1 in HW. cbn [mbind option_bind] in HW.
    destruct (Writes Atoi rs1 ps) as [[rs2 rr2]|] eqn:HW2; [|done].
    injection HW as <- _. apply (IH rs1 rr2); [done| |done].
    unfold decidedByLine.
    change (status rs1) with (skimmed rs1).2.
    change (buffer rs1) with (skimmed rs1).1. rewrite Hsk.
    destruct (status rs =? 0); [apply skim_decidedByLine|apply Hdec].
Qed.

(** X6. A reported status comes from the buffered line.  After any run of
    calls on a new skimmer, a status that [Status] reports and that is not
    0 is the number that [Atoi] reads in the three bytes that follow the
    first run of spaces of the buffered line. *)
Theorem Skimmer_Status_sound (c : C) (ps : list bytes) rs' rr n :
  obeysWriter C ->
  Writes Atoi (Skim c) ps = Some (rs', rr) ->
  Skimmer_Status rs' = (n, true) -> n <> 0 ->
  exists proto rest code after found,
    Cut (trimCR (buffer rs')) x20 = (proto, rest, true)
    /\ Cut (TrimLeft rest x20) x20 = (code, after, found)
    /\ length code = 3%nat
    /\ Atoi (to_string code) = (n, None).
Proof.
  intros Hconn HW HS Hn.
  assert (Hgood : good (Skim c)) by (unfold good, bufferLen; cbn; lia).
  assert (Hdec : decidedByLine Atoi rs').
  { apply (Writes_decidedByLine (Skim c) ps rs' rr); try done. by left. }
  unfold Skimmer_Status in HS.
  destruct (Z.ltb_spec (status rs') 0) as [|Hpos]; [done|].
  injection HS as Hs. destruct Hdec as [H0|[H1|Hline]]; [lia..|].
  rewrite Hs in Hline. unfold lineStatus in Hline.
  destruct (Cut (trimCR (buffer rs')) x20) as [[proto rest] ok] eqn:HCut.
  destruct ok; cbn [negb] in Hline; [|lia].
  destruct (Cut (TrimLeft rest x20) x20) as [[code after] found] eqn:HCode.
  destruct (Z.eqb_spec (Z.of_nat (length code)) 3) as [Hlen|];
    cbn [negb] in Hline; [|lia].
  destruct (Atoi (to_string code)) as [m err] eqn:HAtoi.
  destruct err as [e|].
  { rewrite bool_decide_eq_true_2 in Hline by by eexists. cbn in Hline. lia. }
  rewrite bool_decide_eq_false_2 in Hline by (by intros [? ?]).
  cbn [orb] in Hline. destruct (Z.ltb_spec m 0); [lia|]. subst m.
  exists proto, rest, code, after, found. repeat split; try done. lia.
Qed.

End skimmer.

Section skimmer_examples.

Import responsewriter skimming.

Lemma Buffer_takesAll : takesAll Buffer.
Proof. intros c p. reflexivity. Qed.

Lemma Buffer_obeysWriter : obeysWriter Buffer.
Proof. intros c p. cbn. lia. Qed.

Lemma Skim_good {C} (c : C) : good (Skim c).
Proof. unfold good, bufferLen. cbn. lia. Qed.

Ltac notin :=
  match goal with |- ?P => apply (bool_decide_unpack P) end;
  vm_compute; exact I.

(** A response written in three chunks to a new skimmer over a buffer:
    the calls return the lengths of the chunks, and the buffer behind the
    skimmer holds the response. *)
Lemma Skimmer_Writes_transparent_witness :
  exists rs',
    Writes Atoi_small (Skim {| Bytes := [] |})
      [of_string "HTTP/1.1 2"; of_string "00 OK" ++ [x0d; x0a];
       of_string "body"]
    = Some (rs', [(10, None); (7, None); (4, None)])
    /\ Conn rs'
       = {| Bytes := of_string "HTTP/1.1 200 OK" ++ [x0d; x0a]
                     ++ of_string "body" |}
    /\ limit rs' = 64
    /\ bufferLen rs' <= 64.
Proof.
  exact (Skimmer_Writes_transparent Atoi_small (Skim {| Bytes := [] |})
           [of_string "HTTP/1.1 2"; of_string "00 OK" ++ [x0d; x0a];
            of_string "body"] Buffer_obeysWriter (Skim_good _)).
Defined.

(** A skimmer that has read the status 200 keeps it over later writes. *)
Lemma Skimmer_status_final_witness :
  let rs := {| Conn := {| Bytes := [] |}; limit := 64;
               buffer := of_string "HTTP/1.1 200 OK"; status := 200 |} in
  exists rs' rr,
    Writes Atoi_small rs [of_string "HTTP/1.1 404 Not Found" ++ [x0a]]
    = Some (rs', rr)
    /\ skimmed rs' = skimmed rs
    /\ Skimmer_Status rs' = Skimmer_Status rs.
Proof.
  intros rs. apply (Skimmer_status_final Atoi_small rs). discriminate.
Defined.

(** The status line cut in three chunks, and in two. *)
Lemma Skimmer_Writes_concat_witness :
  exists rs2 r2 rs2' r2',
    Writes Atoi_small (Skim {| Bytes := [] |})
      [of_string "HTTP/1.1 2"; of_string "00 OK" ++ [x0d; x0a];
       of_string "body"]
    = Some (rs2, r2)
    /\ Writes Atoi_small (Skim {| Bytes := [] |})
         [of_string "HTTP/1.1 200 O"; of_string "K" ++ [x0d; x0a]
                                      ++ of_string "body"]
       = Some (rs2', r2')
    /\ skimmed rs2 = (of_string "HTTP/1.1 200 OK" ++ [x0d], 200)
    /\ skimmed rs2' = (of_string "HTTP/1.1 200 OK" ++ [x0d], 200).
Proof.
  apply (Skimmer_Writes_concat Atoi_small (Skim {| Bytes := [] |})
           [of_string "HTTP/1.1 2"; of_string "00 OK" ++ [x0d; x0a];
            of_string "body"]
           [of_string "HTTP/1.1 200 O"; of_string "K" ++ [x0d; x0a]
                                        ++ of_string "body"]
           {| Conn := {| Bytes := of_string "HTTP/1.1 200 OK" ++ [x0d; x0a]
                                  ++ of_string "body" |};
              limit := 64;
              buffer := of_string "HTTP/1.1 200 OK" ++ [x0d];
              status := 200 |}
           (21, None)).
  - exact Buffer_takesAll.
  - apply Skim_good.
  - vm_compute. reflexivity.
  - vm_compute. reflexivity.
  - discriminate.
Defined.

(** The status line [HTTP/1.1 200 OK], cut in three chunks. *)
Lemma Skimmer_reads_status_line_witness :
  exists rs' rr,
    Writes Atoi_small (Skim {| Bytes := [] |})
      [of_string "HTTP/1.1 2"; of_string "00 OK" ++ [x0d; x0a];
       of_string "body"]
    = Some (rs', rr)
    /\ Skimmer_Status rs' = (200, true).
Proof.
  apply (Skimmer_reads_status_line Atoi_small {| Bytes := [] |}
           [of_string "HTTP/1.1 2"; of_string "00 OK" ++ [x0d; x0a];
            of_string "body"]
           (of_string "HTTP/1.1") 0 (of_string "200") (of_string "OK")
           true true (of_string "body") 200).
  - exact Buffer_takesAll.
  - reflexivity.
  - notin.
  - notin.
  - reflexivity.
  - notin.
  - notin.
  - notin.
  - notin.
  - notin.
  - vm_compute. discriminate.
  - reflexivity.
  - lia.
Defined.

(** Seventy bytes without a line feed, in two chunks. *)
Lemma Skimmer_gives_up_witness :
  exists rs' rr,
    Writes Atoi_small (Skim {| Bytes := [] |})
      [repeat x41 30; repeat x42 40]
    = Some (rs', rr)
    /\ Skimmer_Status rs' = (0, false)
    /\ buffer rs' = take 64 (concat [repeat x41 30; repeat x42 40]).
Proof.
  apply (Skimmer_gives_up Atoi_small {| Bytes := [] |}
           [repeat x41 30; repeat x42 40]).
  - exact Buffer_takesAll.
  - vm_compute. lia.
  - notin.
Defined.

(** The status 404 that [Status] reports is the code of the buffered
    line. *)
Lemma Skimmer_Status_sound_witness :
  exists proto rest code after found,
    Cut (trimCR (of_string "HTTP/1.1  404 Not Found")) x20 = (proto, rest, true)
    /\ Cut (TrimLeft rest x20) x20 = (code, after, found)
    /\ length code = 3%nat
    /\ Atoi_small (to_string code) = (404, None).
Proof.
  apply (Skimmer_Status_sound Atoi_small {| Bytes := [] |}
           [of_string "HTTP/1.1  404 Not Found" ++ [x0a]]
           {| Conn := {| Bytes := of_string "HTTP/1.1  404 Not Found" ++ [x0a] |};
              limit := 64;
              buffer := of_string "HTTP/1.1  404 Not Found";
              status := 404 |}
           [(24, None)] 404).
  - exact Buffer_obeysWriter.
  - vm_compute. reflexivity.
  - reflexivity.
  - discriminate.
Defined.

End skimmer_examples.

(** ** More on the GVK defaulting *)

(** X7. Defaulting twice against the same default is defaulting once; the
    empty default changes nothing; and a GVK whose Kind and Version are
    set is left as it is, whatever the default. *)
Theorem gvkWithDefaults_idempotent (actual defaultGVK : schema.GroupVersionKind) :
  cbor.gvkWithDefaults (cbor.gvkWithDefaults actual defaultGVK) defaultGVK
  = cbor.gvkWithDefaults actual defaultGVK
  /\ cbor.gvkWithDefaults actual schema.Empty = actual
  /\ (schema.Kind actual <> "" -> schema.Version actual <> "" ->
      cbor.gvkWithDefaults actual defaultGVK = actual).
Proof.
  destruct actual as [g v k], defaultGVK as [dg dv dk].
  unfold cbor.gvkWithDefaults, schema.Empty; cbn -[String.eqb].
  split; [|split].
  - destruct k as [|kc k], v as [|vc v], g as [|gc g], dk as [|dkc dk],
      dv as [|dvc dv], dg as [|dgc dg]; cbn -[String.eqb];
      repeat match goal with
        | |- context [String.eqb ?a ?b] =>
            destruct (String.eqb_spec a b); cbn -[String.eqb]
        end; try reflexivity; congruence.
  - destruct k as [|kc k], v as [|vc v], g as [|gc g]; reflexivity.
  - intros Hk Hv. destruct k as [|kc k], v as [|vc v]; done.
Qed.

(** ** More on decoding *)

Section decode_more.

Import runtime cbor.

Context {Typed : Type}.
Context `{!Unmarshaler metav1.TypeMeta, !Unmarshaler (gmap string Value),
          !Unmarshaler Typed}.
Variable Diagnose : bytes -> string + error.

Implicit Types (s : serializer Typed) (data : bytes).
Implicit Types (gvk : option schema.GroupVersionKind).

Lemma gvkWithDefaults_complete (a d : schema.GroupVersionKind) :
  schema.Kind a <> "" -> schema.Version a <> "" -> gvkWithDefaults a d = a.
Proof.
  destruct a as [g v k]. unfold gvkWithDefaults; cbn -[String.eqb].
  intros Hk Hv. destruct k as [|kc k], v as [|vc v]; done.
Qed.

(** X8. What the data says is kept.  When the meta factory finds a GVK
    with a Kind and a Version in the data, and [into] is nil or a
    structured object, the GVK that [Decode] returns is that GVK, whatever
    the caller's default and whatever kinds the typer names for [into]. *)
Theorem Decode_keeps_wire_gvk s data gvk (into : option Typed) a0 :
  Interpret (s_metaFactory s) data = inl a0 ->
  schema.Kind a0 <> "" -> schema.Version a0 <> "" ->
  (forall t types unv,
     into = Some t ->
     ObjectKinds (s_typer s) (Structured t) = inl (types, unv) ->
     types <> []) ->
  exists r,
    Decode Diagnose s data gvk (Structured <$> into) = Some r
    /\ cbor.gvk r = Some a0.
Proof.
  intros Hi Hk Hv Htyper. unfold Decode. rewrite Hi.
  assert (Hd : match gvk with
               | Some g => gvkWithDefaults a0 g
               | None => a0
               end = a0).
  { destruct gvk; [by apply gvkWithDefaults_complete|done]. }
  rewrite Hd.
  assert (Hrest : forall into',
    exists r,
      (if (String.length (schema.Kind a0) =? 0)%nat then
         Some {| obj := None; cbor.gvk := Some a0;
                 err := Some (NewMissingKindErr (diagnose Diagnose data));
                 into' := into' |}
       else if (String.length (schema.Version a0) =? 0)%nat then
         Some {| obj := None; cbor.gvk := Some a0;
                 err := Some (NewMissingVersionErr (diagnose Diagnose data));
                 into' := into' |}
       else
         match UseOrCreateObject (s_typer s) (s_creater s) a0 into' with
         | inr err0 =>
             Some {| obj := None; cbor.gvk := Some a0; err := Some err0;
                     into' := into' |}
         | inl (o, isInto) =>
             let '(o0, (strict, err0)) := unmarshal s data o in
             let into0 := if isInto then Some o0 else into' in
             match err0 with
             | Some err1 =>
                 Some {| obj := None; cbor.gvk := Some a0; err := Some err1;
                         into' := into0 |}
             | None =>
                 Some {| obj := Some o0; cbor.gvk := Some a0; err := strict;
                         into' := into0 |}
             end
         end) = Some r /\ cbor.gvk r = Some a0).
  { intros into'.
    destruct (String.length (schema.Kind a0) =? 0)%nat; [by eexists|].
    destruct (String.length (schema.Version a0) =? 0)%nat; [by eexists|].
    destruct (UseOrCreateObject _ _ _ _) as [[o isInto]|e]; [|by eexists].
    destruct (unmarshal s data o) as [o0 [strict [e|]]]; by eexists. }
  destruct into as [t|]; cbn [fmap option_fmap option_map]; [|apply Hrest].
  destruct (ObjectKinds (s_typer s) (Structured t)) as [[types unv]|e] eqn:Hty;
    [|by eexists].
  destruct types as [|t0 ts]; [by destruct (Htyper t [] unv eq_refl Hty)|].
  rewrite gvkWithDefaults_complete by done. apply Hrest.
Qed.

(** X9. An unstructured [into] is overwritten, and the caller's default
    plays no part.  For an unstructured [into], the result of [Decode]
    depends neither on what the object held, nor on the typer, nor on the
    creater; and when the decode succeeds, not on the caller's default GVK
    either. *)
Theorem Decode_unstructured_independent s s' data gvk gvk' content content' :
  s_metaFactory s = s_metaFactory s' -> s_options s = s_options s' ->
  (gvk = gvk' \/ (unmarshal s data (Unstructured ∅)).2.2 = None) ->
  props.results <$> Decode Diagnose s data gvk (Some (Unstructured content))
  = props.results <$> Decode Diagnose s' data gvk' (Some (Unstructured content'))
  /\ (forall a0,
        Interpret (s_metaFactory s) data = inl a0 ->
        Decode Diagnose s data gvk (Some (Unstructured content))
        = Decode Diagnose s' data gvk' (Some (Unstructured content'))).
Proof.
  intros Hmf Hopts Hgvk. unfold Decode. rewrite <- Hmf.
  assert (Hu : unmarshal s' data (Unstructured content')
               = unmarshal s data (Unstructured ∅)).
  { unfold unmarshal, unmarshalInto. by rewrite Hopts. }
  assert (Hu0 : unmarshal s data (Unstructured content)
                = unmarshal s data (Unstructured ∅)) by reflexivity.
  rewrite Hu, Hu0.
  assert (Hsame : forall a0,
    (let actual := match gvk with Some g => gvkWithDefaults a0 g | None => a0 end in
     let '(u, (_, err)) := unmarshal s data (Unstructured ∅) in
     match err with
     | Some err0 =>
         Some {| obj := None; cbor.gvk := Some actual; err := Some err0;
                 into' := Some u |}
     | None =>
         let actual0 :=
           match u with
           | Unstructured content0 => UnstructuredGroupVersionKind content0
           | Structured _ => actual
           end in
         if (String.length (schema.Kind actual0) =? 0)%nat then
           Some {| obj := None; cbor.gvk := Some actual0;
                   err := Some (NewMissingKindErr (diagnose Diagnose data));
                   into' := Some u |}
         else if (String.length (schema.Version actual0) =? 0)%nat then
           Some {| obj := None; cbor.gvk := Some actual0;
                   err := Some (NewMissingVersionErr (diagnose Diagnose data));
                   into' := Some u |}
         else
           Some {| obj := Some u; cbor.gvk := Some actual0; err := None;
                   into' := Some u |}
     end)
    = (let actual := match gvk' with Some g => gvkWithDefaults a0 g | None => a0 end in
     let '(u, (_, err)) := unmarshal s data (Unstructured ∅) in
     match err with
     | Some err0 =>
         Some {| obj := None; cbor.gvk := Some actual; err := Some err0;
                 into' := Some u |}
     | None =>
         let actual0 :=
           match u with
           | Unstructured content0 => UnstructuredGroupVersionKind content0
           | Structured _ => actual
           end in
         if (String.length (schema.Kind actual0) =? 0)%nat then
           Some {| obj := None; cbor.gvk := Some actual0;
                   err := Some (NewMissingKindErr (diagnose Diagnose data));
                   into' := Some u |}
         else if (String.length (schema.Version actual0) =? 0)%nat then
           Some {| obj := None; cbor.gvk := Some actual0;
                   err := Some (NewMissingVersionErr (diagnose Diagnose data));
                   into' := Some u |}
         else
           Some {| obj := Some u; cbor.gvk := Some actual0; err := None;
                   into' := Some u |}
     end)).
  { intros a0. cbv zeta. unfold unmarshal in *.
    destruct (unmarshalInto s data (∅ : gmap string Value))
      as [c [strict [e|]]].
    - destruct Hgvk as [->|Hgvk]; [reflexivity|discriminate].
    - reflexivity. }
  split.
  - destruct (Interpret (s_metaFactory s) data) as [a0|e]; [|reflexivity].
    cbv zeta in Hsame. by rewrite (Hsame a0).
  - intros a0 Hi. rewrite Hi. apply (Hsame a0).
Qed.

(** X10. A strict warning comes only from a strict serializer.  When
    [Decode] returns an object together with an error, the serializer has
    the strict option, the error is a [StrictDecodingError] that holds one
    unknown-field error of the decoder, and [into] was not an unstructured
    object. *)
Theorem Decode_warning_is_strict s data gvk into r o e :
  Decode Diagnose s data gvk into = Some r ->
  obj r = Some o -> err r = Some e ->
  strict (s_options s) = true
  /\ (exists index, e = NewStrictDecodingError [UnknownFieldError index])
  /\ (forall content, into <> Some (Unstructured content)).
Proof.
  unfold Decode.
  destruct (Interpret (s_metaFactory s) data) as [a0|e0];
    [|intros [= <-]; done].
  set (actual := match gvk with Some g => gvkWithDefaults a0 g | None => a0 end).
  assert (Hunm : forall o0 o1 strictErr,
            unmarshal s data o0 = (o1, (Some strictErr, None)) ->
            strict (s_options s) = true
            /\ exists index,
                 strictErr = NewStrictDecodingError [UnknownFieldError index]).
  { intros o0 o1 strictErr. unfold unmarshal, unmarshalInto.
    destruct (strict (s_options s)); cbn [negb].
    2:{ destruct o0 as [c|t].
        - by destruct (Unmarshal modes.DecodeLax data (∅ : gmap string Value)).
        - by destruct (Unmarshal modes.DecodeLax data t). }
    intros Hu. split; [done|].
    destruct o0 as [c|t].
    - destruct (Unmarshal modes.Decode data (∅ : gmap string Value))
        as [c1 [[]|]]; try (by injection Hu).
      destruct (Unmarshal modes.DecodeLax data c1) as [c2 lax].
      injection Hu as _ <- _. by eexists.
    - destruct (Unmarshal modes.Decode data t)
        as [t1 [[]|]]; try (by injection Hu).
      destruct (Unmarshal modes.DecodeLax data t1) as [t2 lax].
      injection Hu as _ <- _. by eexists. }
  assert (Hrest : forall actual' r' ,
    (if (String.length (schema.Kind actual') =? 0)%nat then
       Some {| obj := None; cbor.gvk := Some actual';
               err := Some (NewMissingKindErr (diagnose Diagnose data));
               into' := into |}
     else if (String.length (schema.Version actual') =? 0)%nat then
       Some {| obj := None; cbor.gvk := Some actual';
               err := Some (NewMissingVersionErr (diagnose Diagnose data));
               into' := into |}
     else
       match UseOrCreateObject (s_typer s) (s_creater s) actual' into with
       | inr err0 =>
           Some {| obj := None; cbor.gvk := Some actual'; err := Some err0;
                   into' := into |}
       | inl (o, isInto) =>
           let '(o0, (strict, err0)) := unmarshal s data o in
           let into0 := if isInto then Some o0 else into in
           match err0 with
           | Some err1 =>
               Some {| obj := None; cbor.gvk := Some actual'; err := Some err1;
                       into' := into0 |}
           | None =>
               Some {| obj := Some o0; cbor.gvk := Some actual'; err := strict;
                       into' := into0 |}
           end
       end) = Some r' ->
    obj r' = Some o -> err r' = Some e ->
    strict (s_options s) = true
    /\ exists index, e = NewStrictDecodingError [UnknownFieldError index]).
  { intros actual' r'.
    destruct (String.length (schema.Kind actual') =? 0)%nat;
      [by intros [= <-]|].
    destruct (String.length (schema.Version actual') =? 0)%nat;
      [by intros [= <-]|].
    destruct (UseOrCreateObject _ _ _ _) as [[o0 isInto]|e0];
      [|by intros [= <-]].
    destruct (unmarshal s data o0) as [o1 [strictErr [e1|]]] eqn:Hu;
      [by intros [= <-]|].
    intros [= <-]. cbn [obj err]. intros _ ->. by eapply Hunm. }
  destruct into as [[content|t]|].
  - destruct (unmarshal s data (Unstructured content)) as [u [strictErr [e1|]]];
      [by intros [= <-]|].
    destruct u as [c|t]; repeat case_match; by intros [= <-].
  - destruct (ObjectKinds (s_typer s) (Structured t)) as [[types unv]|e0];
      [|by intros [= <-]].
    destruct types as [|t0 ts]; [done|].
    intros HD Ho He. destruct (Hrest _ _ HD Ho He) as [Hs Hx].
    repeat split; done.
  - intros HD Ho He. destruct (Hrest _ _ HD Ho He) as [Hs Hx].
    repeat split; done.
Qed.

End decode_more.

(** ** Encoding into a buffer *)

Section encode_more.

Import runtime cbor.

Context {Typed : Type}.
Context `{!Marshaler (gmap string Value), !Marshaler (Object Typed)}.

(** X11. What [Encode] writes is recognised.  Into an empty buffer, a
    successful [Encode] writes the tag followed by the encoding of the
    object (of its content mapping when the object is unstructured), and
    [RecognizesData] accepts these bytes; when the encoder fails, [Encode]
    returns its error and the buffer holds the tag alone. *)
Theorem Encode_then_RecognizesData (s : serializer Typed) (obj : Object Typed) :
  let res := Encode s obj {| Bytes := [] |} in
  let encoded :=
    match obj with
    | Unstructured content => Marshal content
    | _ => Marshal obj
    end in
  match encoded with
  | inl payload =>
      res.2 = None
      /\ Bytes res.1 = selfDescribedTag ++ payload
      /\ RecognizesData s (Bytes res.1) = (true, false, None)
  | inr e => res.2 = Some e /\ Bytes res.1 = selfDescribedTag
  end.
Proof.
  unfold Encode, Encoder_Encode, RecognizesData. cbn [Write Buffer_Writer].
  unfold Write, Buffer_Writer. cbn [Bytes app].
  destruct obj as [content|t].
  - destruct (Marshal content) as [payload|e]; cbn [fst snd Bytes]; done.
  - destruct (Marshal (Structured t)) as [payload|e]; cbn [fst snd Bytes]; done.
Qed.

End encode_more.

Section decode_more_examples.

Import runtime cbor cbortest.

(** The data says [v], [k]; the caller's default and the typer say
    [x/y/z]. *)
Lemma Decode_keeps_wire_gvk_witness :
  exists r,
    Decode noDiagnose
      (newSerializer defaultMetaFactory
         (stubCreater_ObjectCreater
            {| createrObj := anyObject VNil;
               createrErr := Some (errorString "test") |})
         (stubTyper_ObjectTyper
            {| gvks := [xyz]; unversioned := false; typerErr := None |})
         [])
      ([xa2] ++ apiVersion_v ++ kind_k) (Some xyz)
      (Structured <$> Some (refcbor.GInterface VNil))
    = Some r
    /\ cbor.gvk r
       = Some {| schema.Group := ""; schema.Version := "v"; schema.Kind := "k" |}.
Proof.
  apply (Decode_keeps_wire_gvk noDiagnose).
  - vm_compute. reflexivity.
  - discriminate.
  - discriminate.
  - intros t types unv _ [= <- _]. discriminate.
Defined.

(** "into unstructured", with and without a default, into an empty object
    and into one that holds an entry. *)
Lemma Decode_unstructured_independent_witness :
  let s := testSerializer [] in
  let data := [xa2] ++ apiVersion_v ++ kind_k in
  props.results
    <$> Decode noDiagnose s data (Some xyz) (Some (Unstructured {["old" := VNil]}))
  = props.results <$> Decode noDiagnose s data None (Some (Unstructured ∅))
  /\ (forall a0,
        Interpret (s_metaFactory s) data = inl a0 ->
        Decode noDiagnose s data (Some xyz) (Some (Unstructured {["old" := VNil]}))
        = Decode noDiagnose s data None (Some (Unstructured ∅))).
Proof.
  intros s data.
  apply (Decode_unstructured_independent noDiagnose s s data).
  - reflexivity.
  - reflexivity.
  - right. vm_compute. reflexivity.
Defined.

(** "strict mode strict error": the object comes with a warning. *)
Lemma Decode_warning_is_strict_witness :
  let s := props.withStrict true (testSerializer []) in
  exists r o e,
    Decode noDiagnose s (hex "a1617a01") (Some schema.Empty)
      (Some PartialObjectMetadata) = Some r
    /\ obj r = Some o /\ err r = Some e
    /\ strict (s_options s) = true
    /\ (exists index, e = NewStrictDecodingError [UnknownFieldError index])
    /\ (forall content, Some PartialObjectMetadata <> Some (Unstructured content)).
Proof.
  intros s.
  assert (H : exists r o e,
            Decode noDiagnose s (hex "a1617a01") (Some schema.Empty)
              (Some PartialObjectMetadata) = Some r
            /\ obj r = Some o /\ err r = Some e).
  { let d := eval vm_compute in
      (Decode noDiagnose s (hex "a1617a01") (Some schema.Empty)
         (Some PartialObjectMetadata)) in
    match d with
    | Some ?r0 =>
        match eval vm_compute in (obj r0) with
        | Some ?o0 =>
            match eval vm_compute in (err r0) with
            | Some ?e0 =>
                exists r0, o0, e0;
                (split; [vm_compute; reflexivity|]);
                split; vm_compute; reflexivity
            end
        end
    end. }
  destruct H as (r & o & e & HD & Ho & He). exists r, o, e.
  split; [exact HD|]. split; [exact Ho|]. split; [exact He|].
  exact (Decode_warning_is_strict noDiagnose s _ _ _ r o e HD Ho He).
Defined.

End decode_more_examples.

(** ** More on the polymorphic schema values *)

Section unions_more.

Import apiextensions roundtrip unionforms.

Variable JSONSchemaProps : Type.
Variable zeroProps : JSONSchemaProps.

Context `{!JSONMarshal (option JSONSchemaProps), !JSONUnmarshal JSONSchemaProps,
          !JSONMarshal (list string), !JSONUnmarshal (list string),
          !JSONMarshal (list JSONSchemaProps),
          !JSONUnmarshal (list JSONSchemaProps),
          !JSONMarshal Value, !JSONUnmarshal Value}.
Context `{!CBORMarshal (option JSONSchemaProps), !CBORUnmarshal JSONSchemaProps,
          !CBORMarshal bool, !CBORUnmarshal bool,
          !CBORMarshal (list string), !CBORUnmarshal (list string),
          !CBORMarshal (list JSONSchemaProps),
          !CBORUnmarshal (list JSONSchemaProps),
          !CBORMarshal Value, !CBORUnmarshal Value}.

(** X12. A failed unmarshalling changes nothing.  Each of the eight
    unmarshalling methods of the four types leaves its receiver as it was
    when it returns an error, whatever the JSON and CBOR codecs do. *)
Theorem Unmarshal_failure_keeps_receiver :
  failsClean (JSONSchemaPropsOrBool_UnmarshalJSON JSONSchemaProps zeroProps)
  /\ failsClean (JSONSchemaPropsOrBool_UnmarshalCBOR JSONSchemaProps zeroProps)
  /\ failsClean (JSONSchemaPropsOrStringArray_UnmarshalJSON JSONSchemaProps zeroProps)
  /\ failsClean (JSONSchemaPropsOrStringArray_UnmarshalCBOR JSONSchemaProps zeroProps)
  /\ failsClean (JSONSchemaPropsOrArray_UnmarshalJSON JSONSchemaProps zeroProps)
  /\ failsClean (JSONSchemaPropsOrArray_UnmarshalCBOR JSONSchemaProps zeroProps)
  /\ failsClean JSON_UnmarshalJSON
  /\ failsClean JSON_UnmarshalCBOR.
Proof.
  unfold failsClean.
  repeat match goal with |- _ /\ _ => split end; intros s data e.
  - unfold JSONSchemaPropsOrBool_UnmarshalJSON.
    repeat (case_match; cbn [fst snd]; try done).
  - unfold JSONSchemaPropsOrBool_UnmarshalCBOR.
    repeat (case_match; cbn [fst snd]; try done).
  - unfold JSONSchemaPropsOrStringArray_UnmarshalJSON.
    repeat (case_match; cbn [fst snd]; try done).
  - unfold JSONSchemaPropsOrStringArray_UnmarshalCBOR.
    repeat (case_match; cbn [fst snd]; try done).
  - unfold JSONSchemaPropsOrArray_UnmarshalJSON.
    repeat (case_match; cbn [fst snd]; try done).
  - unfold JSONSchemaPropsOrArray_UnmarshalCBOR.
    repeat (case_match; cbn [fst snd]; try done).
  - unfold JSON_UnmarshalJSON.
    repeat (case_match; cbn [fst snd]; try done).
  - unfold JSON_UnmarshalCBOR.
    repeat (case_match; cbn [fst snd]; try done).
Qed.

(** X13. Unmarshalling stores one alternative.  What the unmarshalling
    methods of the three schema unions store, when they succeed, has at
    most one alternative set, and a schema-or-bool that holds a schema
    allows. *)
Theorem Unmarshal_stores_form :
  storesForm (JSONSchemaPropsOrBool_UnmarshalJSON JSONSchemaProps zeroProps)
    (canonOrBool JSONSchemaProps)
  /\ storesForm (JSONSchemaPropsOrBool_UnmarshalCBOR JSONSchemaProps zeroProps)
       (canonOrBool JSONSchemaProps)
  /\ storesForm (JSONSchemaPropsOrStringArray_UnmarshalJSON JSONSchemaProps zeroProps)
       (canonOrStringArray JSONSchemaProps)
  /\ storesForm (JSONSchemaPropsOrStringArray_UnmarshalCBOR JSONSchemaProps zeroProps)
       (canonOrStringArray JSONSchemaProps)
  /\ storesForm (JSONSchemaPropsOrArray_UnmarshalJSON JSONSchemaProps zeroProps)
       (canonOrArray JSONSchemaProps)
  /\ storesForm (JSONSchemaPropsOrArray_UnmarshalCBOR JSONSchemaProps zeroProps)
       (canonOrArray JSONSchemaProps).
Proof.
  unfold storesForm.
  repeat match goal with |- _ /\ _ => split end; intros s data v.
  - unfold JSONSchemaPropsOrBool_UnmarshalJSON.
    repeat (case_match; try done); intros ?; by simplify_eq/=.
  - unfold JSONSchemaPropsOrBool_UnmarshalCBOR.
    repeat (case_match; try done); intros ?; by simplify_eq/=.
  - unfold JSONSchemaPropsOrStringArray_UnmarshalJSON, canonOrStringArray.
    destruct (bool_decide (firstByte data = x7b)) eqn:H7b.
    + apply bool_decide_eq_true in H7b.
      rewrite H7b, (bool_decide_eq_false_2 (x7b = x5b)) by done.
      repeat (case_match; try done); intros ?; by simplify_eq/=.
    + repeat (case_match; try done); intros ?; by simplify_eq/=.
  - unfold JSONSchemaPropsOrStringArray_UnmarshalCBOR, canonOrStringArray.
    repeat (case_match; try done); intros ?; by simplify_eq/=.
  - unfold JSONSchemaPropsOrArray_UnmarshalJSON, canonOrArray.
    destruct (bool_decide (firstByte data = x7b)) eqn:H7b.
    + apply bool_decide_eq_true in H7b.
      rewrite H7b, (bool_decide_eq_false_2 (x7b = x5b)) by done.
      repeat (case_match; try done); intros ?; by simplify_eq/=.
    + repeat (case_match; try done); intros ?; by simplify_eq/=.
  - unfold JSONSchemaPropsOrArray_UnmarshalCBOR, canonOrArray.
    repeat (case_match; try done); intros ?; by simplify_eq/=.
Qed.


End unions_more.

Section unions_more_examples.

Import apiextensions roundtrip unionforms samplecodec.


End unions_more_examples.

(** ** The adapter of client feature gates *)

Section adapter.

Import features.

Context {G : Type} `{!featuregate.MutableFeatureGate G}.
Variables Alpha Beta GA Deprecated : string.

Abbreviation convert' := (convert (G:=G) Alpha Beta GA Deprecated).
Abbreviation convertAll' := (convertAll (G:=G) Alpha Beta GA Deprecated).

(** The loop, entry by entry: a converted entry for every entry, later
    entries over earlier ones. *)
Lemma convertAll_lookup (a : clientAdapter) entries :
  forall out out',
    NoDup entries.*1 ->
    convertAll' a out entries = Some out' ->
    forall k,
      out' !! k
      = match (list_to_map entries : gmap string clientSpec) !! k with
        | Some spec => convert' a spec
        | None => out !! k
        end.
Proof.
  induction entries as [|[name spec] entries IH]; intros out out' Hnd Hc k.
  - injection Hc as <-. by rewrite list_to_map_nil, lookup_empty.
  - cbn [convertAll] in Hc. cbn [fmap list_fmap fst] in Hnd.
    apply NoDup_cons in Hnd as [Hname Hnd].
    destruct (convert' a spec) as [c|] eqn:Hconv; [|done].
    rewrite (IH _ _ Hnd Hc k), list_to_map_cons.
    destruct (decide (k = name)) as [->|Hk].
    + rewrite lookup_insert_eq, (not_elem_of_list_to_map_1 entries name Hname).
      by rewrite lookup_insert_eq.
    + rewrite !lookup_insert_ne by done. done.
Qed.

Lemma convertAll_is_Some (a : clientAdapter) entries :
  forall out,
    Forall (fun e => is_Some (convert' a e.2)) entries ->
    is_Some (convertAll' a out entries).
Proof.
  induction entries as [|[name spec] entries IH]; intros out Hall; [done|].
  apply Forall_cons in Hall as [[c Hc] Hall]. cbn [convertAll snd] in *.
  rewrite Hc. by apply IH.
Qed.

Lemma convertAll_None (a : clientAdapter) entries :
  forall out,
    Exists (fun e => convert' a e.2 = None) entries ->
    convertAll' a out entries = None.
Proof.
  induction entries as [|[name spec] entries IH]; intros out Hex.
  - by apply Exists_nil in Hex.
  - cbn [convertAll]. apply Exists_cons in Hex as [Hex|Hex].
    + cbn [snd] in Hex. by rewrite Hex.
    + destruct (convert' a spec); [by apply IH|done].
Qed.

(** X15. [Add] converts every entry, in whatever order it meets them.  For
    every order in which the loop can meet the entries of the map, [Add]
    panics when the prerelease of some entry is none of the four of the
    adapter, and otherwise hands the gate one map with the same names,
    where each specification keeps its [Default] and [LockToDefault] and
    has the prerelease of the first matching case, and returns what the
    gate returns. *)
Theorem clientAdapter_Add_any_order (a : clientAdapter)
    (m : gmap string clientSpec) (entries : list (string * clientSpec)) :
  entries ≡ₚ map_to_list m ->
  (map_Forall (fun _ spec => is_Some (convert' a spec)) m ->
   clientAdapter_Add Alpha Beta GA Deprecated a entries
   = Some (featuregate.Add (mfg a) (omap (convert' a) m))
   /\ dom (omap (convert' a) m) = dom m)
  /\ ((exists name spec, m !! name = Some spec /\ convert' a spec = None) ->
      clientAdapter_Add Alpha Beta GA Deprecated a entries = None)
  /\ (forall spec c,
        convert' a spec = Some c ->
        featuregate.Default c = Default spec
        /\ featuregate.LockToDefault c = LockToDefault spec
        /\ ((PreRelease spec = palpha a /\ featuregate.PreRelease c = Alpha)
            \/ (PreRelease spec = pbeta a /\ featuregate.PreRelease c = Beta)
            \/ (PreRelease spec = pga a /\ featuregate.PreRelease c = GA)
            \/ (PreRelease spec = pdeprecated a
                /\ featuregate.PreRelease c = Deprecated))).
Proof.
  intros Hperm.
  assert (Hnd : NoDup entries.*1).
  { rewrite Hperm. apply NoDup_fst_map_to_list. }
  assert (Hm : (list_to_map entries : gmap string clientSpec) = m).
  { rewrite (list_to_map_proper entries (map_to_list m)) by done.
    apply list_to_map_to_list. }
  split; [|split].
  - intros Hall. unfold clientAdapter_Add.
    destruct (convertAll_is_Some a entries ∅) as [out Hout].
    { rewrite Hperm. apply Forall_forall. intros [name spec] Hin.
      apply elem_of_map_to_list in Hin. apply (Hall name spec Hin). }
    rewrite Hout.
    assert (Heq : out = omap (convert' a) m).
    { apply map_eq. intros k.
      rewrite (convertAll_lookup a entries ∅ out Hnd Hout k), Hm, lookup_omap.
      destruct (m !! k); [done|apply lookup_empty]. }
    rewrite Heq. split; [done|].
    apply set_eq. intros k. rewrite !elem_of_dom, lookup_omap.
    destruct (m !! k) as [spec|] eqn:Hk; cbn.
    + split; [by eexists|]. intros _. apply (Hall k spec Hk).
    + split; intros [? ?]; done.
  - intros (name & spec & Hin & Hnone). unfold clientAdapter_Add.
    rewrite convertAll_None; [done|].
    apply Exists_exists. exists (name, spec). split; [|done].
    rewrite Hperm. by apply elem_of_map_to_list.
  - intros spec c. unfold convert.
    destruct (String.eqb_spec (PreRelease spec) (palpha a));
      [intros [= <-]; cbn; tauto|].
    destruct (String.eqb_spec (PreRelease spec) (pbeta a));
      [intros [= <-]; cbn; tauto|].
    destruct (String.eqb_spec (PreRelease spec) (pga a));
      [intros [= <-]; cbn; tauto|].
    destruct (String.eqb_spec (PreRelease spec) (pdeprecated a));
      [intros [= <-]; cbn; tauto|done].
Qed.

End adapter.

Section adapter_examples.

Import features samplegate.

(** Two features of a client, met in the order B, A, with the prerelease
    names of the gate. *)
Lemma clientAdapter_Add_any_order_witness :
  let a := newClientAdapter {| known := ∅ |} "ALPHA" "BETA" "" "DEPRECATED" in
  let specA := {| Default := true; LockToDefault := false; PreRelease := "BETA" |} in
  let specB := {| Default := false; LockToDefault := true; PreRelease := "" |} in
  let m : gmap string clientSpec := {["A" := specA; "B" := specB]} in
  clientAdapter_Add "ALPHA" "BETA" "" "DEPRECATED" a [("B", specB); ("A", specA)]
  = Some (featuregate.Add (mfg a)
            (omap (convert "ALPHA" "BETA" "" "DEPRECATED" a) m))
  /\ dom (omap (convert (G:=gate) "ALPHA" "BETA" "" "DEPRECATED" a) m) = dom m.
Proof.
  intros a specA specB m.
  assert (Hperm : [("B", specB); ("A", specA)] ≡ₚ map_to_list m).
  { vm_compute. apply perm_swap. }
  apply (proj1 (clientAdapter_Add_any_order "ALPHA" "BETA" "" "DEPRECATED" a m
                  [("B", specB); ("A", specA)] Hperm)).
  apply map_Forall_insert_2; [by eexists|].
  apply map_Forall_singleton. by eexists.
Defined.

End adapter_examples.
